(** * KeepToOrg: a shallow embedding of keepToOrgJson.py

    Python strings are modelled as [String.string], one [ascii] per code
    point (code points 0..255, read as Latin-1).  Python exceptions are
    modelled with the [result] type below. *)

From Stdlib Require Import String Ascii List ZArith Bool Lia.
From Stdlib Require Import Sorted Permutation.
Import ListNotations.
Open Scope string_scope.

(* ------------------------------------------------------------------ *)
(** ** Python string primitives *)

Definition chr (n : nat) : string := String (ascii_of_nat n) EmptyString.
Definition nl : string := chr 10.
Definition dq : string := chr 34.

(** [s[n:]] *)
Fixpoint drop (n : nat) (s : string) : string :=
  match n, s with
  | O, _ => s
  | S _, EmptyString => EmptyString
  | S k, String _ r => drop k r
  end.

(** [s[:n]] *)
Fixpoint take (n : nat) (s : string) : string :=
  match n, s with
  | O, _ => EmptyString
  | S _, EmptyString => EmptyString
  | S k, String c r => String c (take k r)
  end.

(** [s.replace(old, new)] for a non-empty [old]: scan left to right and
    replace non-overlapping occurrences.  [fuel] is the length of [s]:
    every step consumes at least one character. *)
Fixpoint replace_ne (fuel : nat) (old new s : string) : string :=
  match fuel with
  | O => s
  | S f =>
      match s with
      | EmptyString => EmptyString
      | String c r =>
          if String.prefix old s
          then new ++ replace_ne f old new (drop (String.length old) s)
          else String c (replace_ne f old new r)
      end
  end.

(** [s.replace("", new)] inserts [new] before every character and at the end. *)
Fixpoint replace_empty (new s : string) : string :=
  match s with
  | EmptyString => new
  | String c r => new ++ String c (replace_empty new r)
  end.

Definition py_replace (old new s : string) : string :=
  if String.eqb old "" then replace_empty new s
  else replace_ne (String.length s) old new s.

(** [str.isspace] on code points 0..255. *)
Definition is_space (c : ascii) : bool :=
  let n := nat_of_ascii c in
  ((9 <=? n) && (n <=? 13))%nat || ((28 <=? n) && (n <=? 32))%nat
  || (n =? 133)%nat || (n =? 160)%nat.

Fixpoint lstrip (s : string) : string :=
  match s with
  | EmptyString => EmptyString
  | String c r => if is_space c then lstrip r else s
  end.

Fixpoint rstrip (s : string) : string :=
  match s with
  | EmptyString => EmptyString
  | String c r =>
      let r' := rstrip r in
      if String.eqb r' "" && is_space c then EmptyString else String c r'
  end.

(** [s.strip()] *)
Definition strip (s : string) : string := rstrip (lstrip s).

(** [s.find(c)] for a one-character needle; [None] stands for [-1]. *)
Fixpoint find_char (c : ascii) (s : string) : option nat :=
  match s with
  | EmptyString => None
  | String d r =>
      if Ascii.eqb c d then Some O
      else match find_char c r with Some i => Some (S i) | None => None end
  end.

(** [sep.join(xs)] *)
Fixpoint join (sep : string) (xs : list string) : string :=
  match xs with
  | [] => ""
  | [x] => x
  | x :: r => x ++ sep ++ join sep r
  end.

(* ------------------------------------------------------------------ *)
(** ** datetime *)

Record datetime := mkDatetime {
  year : Z; month : Z; day : Z;
  hour : Z; minute : Z; second : Z; microsecond : Z }.

(** Days since 1970-01-01 of a proleptic Gregorian date. *)
Definition days_from_civil (y m d : Z) : Z :=
  let y' := if (m <=? 2)%Z then (y - 1)%Z else y in
  let era := (y' / 400)%Z in
  let yoe := (y' - era * 400)%Z in
  let mp := if (m >? 2)%Z then (m - 3)%Z else (m + 9)%Z in
  let doy := ((153 * mp + 2) / 5 + d - 1)%Z in
  let doe := (yoe * 365 + yoe / 4 - yoe / 100 + doy)%Z in
  (era * 146097 + doe - 719468)%Z.

(** Inverse of [days_from_civil]: (year, month, day). *)
Definition civil_from_days (z0 : Z) : Z * Z * Z :=
  let z := (z0 + 719468)%Z in
  let era := (z / 146097)%Z in
  let doe := (z - era * 146097)%Z in
  let yoe := ((doe - doe / 1460 + doe / 36524 - doe / 146096) / 365)%Z in
  let y := (yoe + era * 400)%Z in
  let doy := (doe - (365 * yoe + yoe / 4 - yoe / 100))%Z in
  let mp := ((5 * doy + 2) / 153)%Z in
  let d := (doy - (153 * mp + 2) / 5 + 1)%Z in
  let m := if (mp <? 10)%Z then (mp + 3)%Z else (mp - 9)%Z in
  (if (m <=? 2)%Z then (y + 1)%Z else y, m, d).

(** [datetime.datetime(y, m, d)] *)
Definition datetime_ymd (y m d : Z) : datetime := mkDatetime y m d 0 0 0 0.

(** [datetime.datetime.fromtimestamp(usec / 1000000.0)], local time taken
    as UTC and the microsecond count taken exactly (Python goes through a
    float and rounds).  Python raises (ValueError / OverflowError) when the
    year leaves [1, 9999]; at the very ends of that range (the first day of
    year 1, values the float division rounds past 9999-12-31) it raises
    where this model does not. *)
Definition fromtimestamp_usec (usec : Z) : option datetime :=
  let secs := (usec / 1000000)%Z in
  let us := (usec mod 1000000)%Z in
  let days := (secs / 86400)%Z in
  let sod := (secs mod 86400)%Z in
  let '(y, m, d) := civil_from_days days in
  if ((1 <=? y) && (y <=? 9999))%Z
  then Some (mkDatetime y m d (sod / 3600) ((sod mod 3600) / 60) (sod mod 60) us)
  else None.

(** Python compares datetimes field by field. *)
Fixpoint lex_cmp (a b : list Z) : comparison :=
  match a, b with
  | [], [] => Eq
  | [], _ :: _ => Lt
  | _ :: _, [] => Gt
  | x :: a', y :: b' =>
      match Z.compare x y with Eq => lex_cmp a' b' | c => c end
  end.

Definition dt_fields (t : datetime) : list Z :=
  [year t; month t; day t; hour t; minute t; second t; microsecond t].

Definition dt_cmp (a b : datetime) : comparison := lex_cmp (dt_fields a) (dt_fields b).

(** [a < b] on datetimes *)
Definition dt_ltb (a b : datetime) : bool :=
  match dt_cmp a b with Lt => true | _ => false end.

Definition digit (n : Z) : string := chr (48 + Z.to_nat n).
Definition pad2 (n : Z) : string := digit (n / 10) ++ digit (n mod 10).
Definition pad4 (n : Z) : string :=
  digit (n / 1000) ++ digit ((n / 100) mod 10) ++ digit ((n / 10) mod 10) ++ digit (n mod 10).

(** [%a] in the C locale. *)
Definition weekday_abbr (t : datetime) : string :=
  match ((days_from_civil (year t) (month t) (day t) + 4) mod 7)%Z with
  | 0%Z => "Sun" | 1%Z => "Mon" | 2%Z => "Tue" | 3%Z => "Wed"
  | 4%Z => "Thu" | 5%Z => "Fri" | _ => "Sat"
  end.

(** [date.strftime(":PROPERTIES:\n:CREATED:  [%Y-%m-%d %a %H:%M]\n:END:")] *)
Definition created_block (t : datetime) : string :=
  ":PROPERTIES:" ++ nl ++ ":CREATED:  [" ++ pad4 (year t) ++ "-" ++ pad2 (month t)
  ++ "-" ++ pad2 (day t) ++ " " ++ weekday_abbr t ++ " " ++ pad2 (hour t) ++ ":"
  ++ pad2 (minute t) ++ "]" ++ nl ++ ":END:".

(* ------------------------------------------------------------------ *)
(** ** tagsToOrgString and Note *)

(** [tagsToOrgString(tags)] *)
Definition tagsToOrgString (tags : list string) : string :=
  match tags with
  | [] => ""
  | _ => fold_left (fun tagString tag => tagString ++ tag ++ ":") tags ":"
  end.

Record Note := mkNote {
  title : string;
  body : string;
  tags : list string;
  archived : bool;
  date : datetime;
  images : list string }.

(** [Note()]: the constructor's defaults, with the date Jan 1, 2000. *)
Definition Note_init : Note :=
  mkNote "" "" [] false (datetime_ymd 2000 1 1) [].

Definition set_title (t : string) (n : Note) : Note :=
  mkNote t (body n) (tags n) (archived n) (date n) (images n).
Definition set_body (b : string) (n : Note) : Note :=
  mkNote (title n) b (tags n) (archived n) (date n) (images n).
Definition set_tags (ts : list string) (n : Note) : Note :=
  mkNote (title n) (body n) ts (archived n) (date n) (images n).
Definition set_archived (a : bool) (n : Note) : Note :=
  mkNote (title n) (body n) (tags n) a (date n) (images n).
Definition set_date (d : datetime) (n : Note) : Note :=
  mkNote (title n) (body n) (tags n) (archived n) d (images n).
Definition set_images (imgs : list string) (n : Note) : Note :=
  mkNote (title n) (body n) (tags n) (archived n) (date n) imgs.

(** The raw markup fragments of the Keep export. *)
Definition unchecked_item : string :=
  "<li class=" ++ dq ++ "listitem" ++ dq ++ "><span class=" ++ dq ++ "bullet" ++ dq
  ++ ">&#9744;</span>" ++ nl.
Definition checked_item : string :=
  "<li class=" ++ dq ++ "listitem checked" ++ dq ++ "><span class=" ++ dq ++ "bullet"
  ++ dq ++ ">&#9745;</span>".
Definition htmlTagsToErase : list string :=
  ["<span class=" ++ dq ++ "text" ++ dq ++ ">"; "</span>"; "</li>";
   "<ul class=" ++ dq ++ "list" ++ dq ++ ">"; "</ul>"].
Definition listTypesToFixNewLines : list string :=
  ["- [ ] " ++ nl; "- [X] " ++ nl].

(** [s[:-1]] *)
Definition drop_last (s : string) : string := take (String.length s - 1) s.

(** Lines 58-75 of [toOrgString]: list markup to org checkboxes. *)
Definition org_list_markup (b : string) : string :=
  let b := py_replace unchecked_item "- [ ] " b in
  let b := py_replace checked_item "- [X] " b in
  let b := fold_left (fun b htmlTagToErase => py_replace htmlTagToErase "" b)
             htmlTagsToErase b in
  fold_left (fun b l => py_replace l (drop_last l) b) listTypesToFixNewLines b.

(** Lines 84-85: strip the inline hashtags of the (unescaped) tags. *)
Definition strip_hashtags (ts : list string) (b : string) : string :=
  fold_left (fun b tag => py_replace ("#" ++ tag) "" b) ts b.

(** Line 88 *)
Definition imageLinks (n : Note) : list string :=
  map (fun place => "[[file:" ++ place ++ "]]") (images n).

(** Lines 96-107: make a title if necessary; returns [(orgTitle, body)]. *)
Definition make_title (t b : string) : string * string :=
  if String.eqb t "" then
    match find_char (ascii_of_nat 10) b with
    | Some toNewline => (take toNewline b, drop (toNewline + 1) b)
    | None => (b, "")
    end
  else (t, b).

(** Lines 109-127: the four output shapes. *)
Definition org_format (arch : bool) (orgTitle b : string) (ts : list string)
    (d : datetime) : string :=
  let nesting := if arch then "*" else "" in
  let created := created_block d in
  if negb (String.eqb b "") || negb (Nat.eqb (length ts) 0) then
    if negb (String.eqb b "") && Nat.eqb (length ts) 0 then
      "*" ++ nesting ++ " " ++ orgTitle ++ nl ++ created ++ nl ++ b
    else if String.eqb b "" && negb (Nat.eqb (length ts) 0) then
      "*" ++ nesting ++ " " ++ orgTitle ++ " " ++ tagsToOrgString ts ++ nl ++ created ++ nl
    else
      "*" ++ nesting ++ " " ++ orgTitle ++ " " ++ b ++ nl ++ tagsToOrgString ts ++ nl
      ++ created ++ nl
  else "*" ++ nesting ++ " " ++ orgTitle ++ nl ++ created.

Section Render.
(** [html.unescape] *)
Variable unescape : string -> string.

(** Lines 54-93: the body after markup conversion, unescaping, hashtag
    stripping, trimming and image links. *)
Definition normalized_body (n : Note) : string :=
  let b := org_list_markup (body n) in
  let b := unescape b in
  let ts := map unescape (tags n) in
  let b := strip_hashtags ts b in
  strip b ++ join nl (imageLinks n).

(** [note.toOrgString()]: the rendered text and the note after the call
    (lines 80-81 overwrite [self.tags] with the unescaped tags). *)
Definition toOrgString (n : Note) : string * Note :=
  let t := unescape (title n) in
  let ts := map unescape (tags n) in
  let '(orgTitle, b) := make_title t (normalized_body n) in
  (org_format (archived n) orgTitle b ts (date n), set_tags ts n).

End Render.

(** A fragment of [html.unescape]: the named references [&amp; &lt; &gt;
    &quot; &apos;] (and the first four without the semicolon, as in the
    HTML5 table); other references are left as they are. *)
Definition entity_table : list (string * string) :=
  [("amp;", "&"); ("lt;", "<"); ("gt;", ">"); ("quot;", dq); ("apos;", chr 39);
   ("amp", "&"); ("lt", "<"); ("gt", ">"); ("quot", dq)].

Fixpoint match_entity (tbl : list (string * string)) (s : string)
    : option (string * string) :=
  match tbl with
  | [] => None
  | (name, v) :: r =>
      if String.prefix name s then Some (v, drop (String.length name) s)
      else match_entity r s
  end.

Fixpoint html_unescape_fuel (fuel : nat) (s : string) : string :=
  match fuel with
  | O => s
  | S f =>
      match s with
      | EmptyString => EmptyString
      | String c r =>
          if Ascii.eqb c "&"%char then
            match match_entity entity_table r with
            | Some (v, rest) => v ++ html_unescape_fuel f rest
            | None => String c (html_unescape_fuel f r)
            end
          else String c (html_unescape_fuel f r)
      end
  end.

Definition html_unescape (s : string) : string :=
  html_unescape_fuel (String.length s) s.

(* ------------------------------------------------------------------ *)
(** ** Errors *)

(** The exceptions [main] can raise while reading the notes. *)
Inductive py_error :=
| KeyError (key : string)              (** [meta_data[key]] on a missing key *)
| TimestampError (usec : Z)            (** [fromtimestamp] out of range *)
| NoContentError.                      (** line 189 *)

Inductive result (A : Type) :=
| Ok (a : A)
| Err (e : py_error).
Arguments Ok {A} a.
Arguments Err {A} e.

Definition bind {A B} (m : result A) (k : A -> result B) : result B :=
  match m with Ok a => k a | Err e => Err e end.

Notation "x <- m ;; k" := (bind m (fun x => k))
  (at level 61, m at next level, right associativity).

(** [d[key]] on a field that is present or absent. *)
Definition get {A} (key : string) (v : option A) : result A :=
  match v with Some a => Ok a | None => Err (KeyError key) end.

Fixpoint mapM {A B} (f : A -> result B) (xs : list A) : result (list B) :=
  match xs with
  | [] => Ok []
  | x :: r => y <- f x ;; ys <- mapM f r ;; Ok (y :: ys)
  end.

(* ------------------------------------------------------------------ *)
(** ** Input records *)

(** One note's JSON object after [json.loads], each field absent ([None])
    or of the type the Keep export gives it.  List items and attachments
    are objects whose [text] / [filePath] key may be absent. *)
Record keep_record := mkRecord {
  isArchived : option bool;
  isTrashed : option bool;
  createdTimestampUsec : option Z;
  r_title : option string;
  textContent : option string;
  listContent : option (list (option string));
  attachments : option (list (option string)) }.

(** Lines 170-200 of [main]: build the note of one record.  Attachment
    files are copied when found; the copy is a file-system side effect that
    does not touch the note, and [images] receives [filePath] either way. *)
Definition parse_note (meta_data : keep_record) : result Note :=
  let note := Note_init in
  a <- get "isArchived" (isArchived meta_data) ;;
  arch <- (if a then Ok true else get "isTrashed" (isTrashed meta_data)) ;;
  let note := if arch then set_archived true note else note in
  usec <- get "createdTimestampUsec" (createdTimestampUsec meta_data) ;;
  d <- match fromtimestamp_usec usec with
       | Some d => Ok d
       | None => Err (TimestampError usec)
       end ;;
  let note := set_date d note in
  t <- get "title" (r_title meta_data) ;;
  let note := if String.eqb t "" then note else set_title t note in
  note <- match textContent meta_data, listContent meta_data with
          | Some tc, _ => Ok (set_body tc note)
          | None, Some items =>
              text <- mapM (get "text") items ;;
              Ok (set_body ("List:" ++ nl ++ join nl text) note)
          | None, None => Err NoContentError
          end ;;
  match attachments meta_data with
  | None => Ok note
  | Some atts =>
      fps <- mapM (get "filePath") atts ;;
      Ok (set_images (images note ++ fps)%list note)
  end.

(* ------------------------------------------------------------------ *)
(** ** Grouping *)

(** Python objects: note [i] of the run lives at index [i] of the store;
    a group (a value of the dict [noteGroups]) holds note indices, so a
    note placed in several groups is one shared object. *)
Definition store := list Note.
Definition groups := list (string * list nat).

Definition lookup (st : store) (i : nat) : Note := nth i st Note_init.

Fixpoint update (st : store) (i : nat) (n : Note) : store :=
  match st, i with
  | [], _ => []
  | _ :: r, O => n :: r
  | m :: r, S k => m :: update r k n
  end.

(** [if k in noteGroups: noteGroups[k].append(i) else: noteGroups[k] = [i]];
    a new key goes last (dicts keep insertion order). *)
Fixpoint add_to_group (k : string) (i : nat) (g : groups) : groups :=
  match g with
  | [] => [(k, [i])]
  | (k', ids) :: r =>
      if String.eqb k k' then (k', (ids ++ [i])%list) :: r else (k', ids) :: add_to_group k i r
  end.

(** Lines 202-213: place note [i] into its groups. *)
Definition assign_note (splitByTag : bool) (i : nat) (note : Note) (g : groups) : groups :=
  let g := if splitByTag then fold_left (fun g tag => add_to_group tag i g) (tags note) g
           else g in
  match tags note with
  | [] => add_to_group "Untagged" i g
  | _ => g
  end.

(** Lines 162-213: read every record in order, stopping at the first
    exception. *)
Fixpoint read_notes (splitByTag : bool) (rs : list keep_record) (st : store) (g : groups)
    : result (store * groups) :=
  match rs with
  | [] => Ok (st, g)
  | r :: rest =>
      note <- parse_note r ;;
      read_notes splitByTag rest (st ++ [note])%list (assign_note splitByTag (length st) note g)
  end.

(* ------------------------------------------------------------------ *)
(** ** Sorting and writing *)

(** [sorted(group, key=lambda note: note.date)]: Python's sort is stable,
    so its result is the stable insertion sort below. *)
Fixpoint insert_by_date (st : store) (i : nat) (l : list nat) : list nat :=
  match l with
  | [] => [i]
  | j :: r =>
      if dt_ltb (date (lookup st i)) (date (lookup st j)) then i :: j :: r
      else j :: insert_by_date st i r
  end.

Definition sort_by_date (st : store) (l : list nat) : list nat :=
  fold_left (fun acc i => insert_by_date st i acc) l [].

(** One iteration of lines 227-231. *)
Definition group_step (unescape : string -> string)
    (acc : list string * list string * store) (i : nat) : list string * list string * store :=
  let '(archivedLines, lines, st) := acc in
  let note := lookup st i in
  let '(s, note') := toOrgString unescape note in
  let st := update st i note' in
  if archived note then ((archivedLines ++ [String.append s nl])%list, lines, st)
  else (archivedLines, (lines ++ [String.append s nl])%list, st).

(** Lines 225-231: [(archivedLines, lines, store after the calls)]. *)
Definition group_loop (unescape : string -> string) (st : store) (ids : list nat)
    : list string * list string * store :=
  fold_left (group_step unescape) ids ([], [], st).

Definition archived_header : string := "* *Archived*" ++ nl.

(** Lines 220-234: the lines written for one group. *)
Definition render_group (unescape : string -> string) (includeArchived : bool)
    (st : store) (group : list nat) : list string * store :=
  let notesSortedByDate := sort_by_date st group in
  let '(archivedLines, lines, st) := group_loop unescape st notesSortedByDate in
  if negb (Nat.eqb (length archivedLines) 0) && includeArchived
  then (archived_header :: (archivedLines ++ lines)%list, st)
  else (lines, st).

(** [makeSafeFilename] *)
Definition makeSafeFilename (s : string) : string :=
  py_replace "." "" (py_replace "/" "" s).

(** Lines 216-240: one [(file name, contents)] per group, in dict order. *)
Fixpoint write_groups (unescape : string -> string) (outputDir : string)
    (includeArchived : bool) (st : store) (g : groups) : list (string * string) * store :=
  match g with
  | [] => ([], st)
  | (tag, group) :: rest =>
      let outFileName := outputDir ++ "/" ++ makeSafeFilename tag ++ ".org" in
      let '(lines, st) := render_group unescape includeArchived st group in
      let '(files, st) := write_groups unescape outputDir includeArchived st rest in
      ((outFileName, String.concat "" lines) :: files, st)
  end.

(** [main(keepHtmlDir, outputDir, includeArchived, splitByTag)] on the
    records of the discovered [.json] files: the [.org] files written, or
    the exception that ends the run (raised before any [.org] file is
    written).  The attachment copies of lines 192-199, made into
    [outputDir] while the records are read, are not part of this result;
    [attachment_source] models where each one is copied from. *)
Definition main (unescape : string -> string) (rs : list keep_record) (outputDir : string)
    (includeArchived splitByTag : bool) : result (list (string * string)) :=
  sg <- read_notes splitByTag rs [] [] ;;
  let '(st, g) := sg in
  Ok (fst (write_groups unescape outputDir includeArchived st g)).

(* ------------------------------------------------------------------ *)
(** ** getHtmlValueIfMatches and getAllNoteHtmlFiles *)






(** [s[i:j]] with Python's treatment of negative and out-of-range bounds. *)
Definition py_slice (i j : Z) (s : string) : string :=
  let len := Z.of_nat (String.length s) in
  let i' := if (i <? 0)%Z then Z.max 0 (i + len) else Z.min i len in
  let j' := if (j <? 0)%Z then Z.max 0 (j + len) else Z.min j len in
  if (j' <=? i')%Z then "" else take (Z.to_nat (j' - i')) (drop (Z.to_nat i') s).


(** [s.endswith(suffix)] *)
Definition endswith (suffix s : string) : bool :=
  Nat.leb (String.length suffix) (String.length s)
  && String.eqb (drop (String.length s - String.length suffix) s) suffix.

(** [os.path.join(root, file)] (POSIX). *)
Definition os_path_join (root file : string) : string :=
  if String.prefix "/" file then file
  else if String.eqb root "" || endswith "/" root then root ++ file
  else root ++ "/" ++ file.

(** [getAllNoteHtmlFiles(htmlDir)] on the triples [(root, dirs, files)]
    that [os.walk(htmlDir)] yields, in the order it yields them. *)
Definition getAllNoteHtmlFiles (walk : list (string * list string * list string))
    : list string :=
  fold_left
    (fun jsonFiles '(root, dirs, files) =>
       fold_left
         (fun jsonFiles file =>
            if endswith ".json" file then (jsonFiles ++ [os_path_join root file])%list
            else jsonFiles)
         files jsonFiles)
    walk [].

(* ------------------------------------------------------------------ *)
(** ** Attachments and the written-notes report *)

(** Lines 194-199 of [main]: the path [copy2] copies an attachment from,
    given which paths exist: [filePath] itself, else [filePath[:-3]+"jpg"],
    else [filePath[:-3]+"jpeg"], each joined to [keepHtmlDir]; [None] when
    none exists and nothing is copied. *)
Definition attachment_source (path_exists : string -> bool) (keepHtmlDir filePath : string)
    : option string :=
  let p0 := os_path_join keepHtmlDir filePath in
  let p1 := os_path_join keepHtmlDir (py_slice 0 (-3) filePath ++ "jpg") in
  let p2 := os_path_join keepHtmlDir (py_slice 0 (-3) filePath ++ "jpeg") in
  if path_exists p0 then Some p0
  else if path_exists p1 then Some p1
  else if path_exists p2 then Some p2
  else None.

(** Lines 216, 239-240: [numNotesWritten] adds up [len(group)] over the
    groups, in dict order. *)
Definition numNotesWritten (g : groups) : nat :=
  fold_left (fun n tg => n + length (snd tg)) g 0.

(** The total that [main] reports on line 242, or the exception that ends
    the run before it. *)
Definition main_numNotesWritten (rs : list keep_record) (splitByTag : bool) : result nat :=
  sg <- read_notes splitByTag rs [] [] ;;
  Ok (numNotesWritten (snd sg)).

(* ------------------------------------------------------------------ *)
(** ** Auxiliary definitions for the statements *)

Definition nl_char : ascii := ascii_of_nat 10.

(** Number of occurrences of a character. *)
Fixpoint count_char (c : ascii) (s : string) : nat :=
  match s with
  | EmptyString => O
  | String d r => (if Ascii.eqb c d then 1 else 0) + count_char c r
  end.

(** The group of a key in [noteGroups], if any. *)
Fixpoint group_of (k : string) (g : groups) : option (list nat) :=
  match g with
  | [] => None
  | (k', ids) :: r => if String.eqb k k' then Some ids else group_of k r
  end.

(** The dict [noteGroups] when the first [k] notes all went to "Untagged". *)
Definition untagged_groups (k : nat) : groups :=
  match k with O => [] | S _ => [("Untagged", seq 0 k)] end.

(** The blocks ([toOrgString() + "\n"]) of the notes [l], rendered one
    after the other on a shared store, and the store afterwards. *)
Fixpoint render_seq (unescape : string -> string) (st : store) (l : list nat)
    : list string * store :=
  match l with
  | [] => ([], st)
  | i :: rest =>
      let r := toOrgString unescape (lookup st i) in
      let st1 := update st i (snd r) in
      (String.append (fst r) nl :: fst (render_seq unescape st1 rest),
       snd (render_seq unescape st1 rest))
  end.

(** [note.archived] and [note.date] of the note at index [i]. *)
Definition arch_at (st : store) (i : nat) : bool := archived (lookup st i).
Definition date_le (st : store) (i j : nat) : Prop :=
  dt_cmp (date (lookup st i)) (date (lookup st j)) <> Gt.
Definition date_eqb (d : datetime) (st : store) (i : nat) : bool :=
  match dt_cmp (date (lookup st i)) d with Eq => true | _ => false end.

(** [s] with every occurrence of [c] removed. *)
Fixpoint remove_char (c : ascii) (s : string) : string :=
  match s with
  | EmptyString => EmptyString
  | String d r => if Ascii.eqb c d then remove_char c r else String d (remove_char c r)
  end.

(** Whether [old] occurs in [s] at some position. *)
Fixpoint occurs (old s : string) : bool :=
  String.prefix old s || match s with EmptyString => false | String _ r => occurs old r end.

(** The fragments the list conversion rewrites or erases. *)
Definition markup_fragments : list string :=
  unchecked_item :: checked_item :: (htmlTagsToErase ++ listTypesToFixNewLines)%list.

(** List markup as the Keep export writes it: each item is the checkbox
    fragment, the text in a [span], and the closing tags, on its own line,
    inside a [ul] element. *)
Definition span_text_open : string := "<span class=" ++ dq ++ "text" ++ dq ++ ">".
Definition ul_open : string := "<ul class=" ++ dq ++ "list" ++ dq ++ ">".

Definition item_markup (it : bool * string) : string :=
  let '(checked, t) := it in
  (if checked then checked_item else unchecked_item) ++ span_text_open ++ t
  ++ "</span>" ++ "</li>" ++ nl.

Fixpoint items_markup (items : list (bool * string)) : string :=
  match items with [] => "" | it :: r => item_markup it ++ items_markup r end.

Definition list_markup (items : list (bool * string)) : string :=
  ul_open ++ items_markup items ++ "</ul>".

(** The org checkbox lines of the items. *)
Definition checkbox_line (it : bool * string) : string :=
  let '(checked, t) := it in (if checked then "- [X] " else "- [ ] ") ++ t ++ nl.

Fixpoint checkbox_lines (items : list (bool * string)) : string :=
  match items with [] => "" | it :: r => checkbox_line it ++ checkbox_lines r end.

(** An item text that holds no markup: non-empty, without "<", "-" or a
    newline. *)
Definition plain_item_text (t : string) : bool :=
  negb (String.eqb t "") && Nat.eqb (count_char "<"%char t) 0
  && Nat.eqb (count_char "-"%char t) 0 && Nat.eqb (count_char nl_char t) 0.

(** [s.replace(old, new)] for a non-empty [old], with its natural fuel. *)
Definition rep (old new s : string) : string := replace_ne (String.length s) old new s.

(** [old] and [x] differ at a position both have. *)
Fixpoint mismatch (o x : string) : bool :=
  match o, x with
  | String a o', String b x' => if Ascii.eqb a b then mismatch o' x' else true
  | _, _ => false
  end.

(** No occurrence of [o] starts inside [s], whatever follows [s]. *)
Fixpoint clean (o s : string) : bool :=
  match s with EmptyString => true | String _ r => mismatch o s && clean o r end.

(** A string cut into literal pieces and text pieces. *)
Inductive seg := Lit (s : string) | Txt (t : string).

Definition seg_str (sg : seg) : string := match sg with Lit s => s | Txt t => t end.

Fixpoint render_segs (ps : list seg) : string :=
  match ps with [] => "" | sg :: r => seg_str sg ++ render_segs r end.

(** One replacement pass on a piece: a literal piece equal to [old] becomes
    [new]; other pieces stay. *)
Definition seg_pass (p : string * string) (sg : seg) : seg :=
  match sg with
  | Lit s => if String.eqb s (fst p) then Lit (snd p) else Lit s
  | Txt t => Txt t
  end.

Definition seg_okb (o : string) (sg : seg) : bool :=
  match sg with Lit s => String.eqb s o || clean o s | Txt t => clean o t end.

Fixpoint chain_okb (P : list (string * string)) (sg : seg) : bool :=
  match P with [] => true | p :: r => seg_okb (fst p) sg && chain_okb r (seg_pass p sg) end.

Definition seg_chain (P : list (string * string)) (sg : seg) : seg :=
  fold_left (fun sg p => seg_pass p sg) P sg.

(** The passes of [org_list_markup]: the checkbox fragments and the
    erased tags, then the empty-checkbox fixes. *)
Definition markup_passes : list (string * string) :=
  ([(unchecked_item, "- [ ] "); (checked_item, "- [X] ")]
   ++ map (fun t => (t, "")) htmlTagsToErase)%list.
Definition fix_passes : list (string * string) :=
  map (fun l => (l, drop_last l)) listTypesToFixNewLines.

Definition item_segs (it : bool * string) : list seg :=
  let '(checked, t) := it in
  [Lit (if checked then checked_item else unchecked_item); Lit span_text_open; Txt t;
   Lit "</span>"; Lit "</li>"; Lit nl].

Definition item_segs2 (it : bool * string) : list seg :=
  let '(checked, t) := it in [Txt ((if checked then "- [X] " else "- [ ] ") ++ t); Lit nl].

Definition head_char (s : string) : option ascii :=
  match s with EmptyString => None | String c _ => Some c end.

Fixpoint last_char (s : string) : option ascii :=
  match s with
  | EmptyString => None
  | String c r => match r with EmptyString => Some c | _ => last_char r end
  end.

(** ** Concrete inputs *)

(** The note used to test the rendering of a note with a body and tags. *)
Definition note_body_tags : Note :=
  mkNote "T" "q" ["x"] false (datetime_ymd 2000 1 1) [].

(** The historical reading of the body-and-tags shape: heading with the
    body inline, tag string, metadata block, and the body once more after
    the metadata block. *)
Definition body_repeated_after_metadata (unescape : string -> string) (n : Note) : Prop :=
  let ts := map unescape (tags n) in
  let '(t, b) := make_title (unescape (title n)) (normalized_body unescape n) in
  exists s1 s2 s3 tail,
    fst (toOrgString unescape n) =
    "*" ++ (if archived n then "*" else "") ++ " " ++ t ++ " " ++ b ++ s1
    ++ tagsToOrgString ts ++ s2 ++ created_block (date n) ++ s3 ++ b ++ tail.

Definition note_two_lines : Note :=
  mkNote "" ("Shopping" ++ nl ++ "eggs") [] false (datetime_ymd 2000 1 1) [].

Definition rec_milk : keep_record :=
  mkRecord (Some false) (Some false) (Some 1700000000123456%Z) (Some "") (Some "Buy milk")
    None None.
Definition rec_old_list : keep_record :=
  mkRecord (Some true) None (Some 1600000000000000%Z) (Some "Old") None
    (Some [Some "a"; Some "b"]) (Some [Some "x.png"]).
Definition rec_no_timestamp : keep_record :=
  mkRecord (Some false) (Some false) None (Some "") (Some "Buy milk") None None.
Definition rec_far_timestamp : keep_record :=
  mkRecord (Some false) (Some false) (Some 400000000000000000%Z) (Some "") (Some "Buy milk")
    None None.
Definition rec_no_archived_flag : keep_record :=
  mkRecord None (Some false) (Some 0%Z) (Some "") (Some "Buy milk") None None.
Definition rec_no_content : keep_record :=
  mkRecord (Some false) (Some false) (Some 0%Z) (Some "") None None None.

Definition demo_records : list keep_record := [rec_milk; rec_old_list].
Definition demo_store : store :=
  match read_notes true demo_records [] [] with Ok (st, _) => st | Err _ => [] end.
Definition demo_groups : groups :=
  match read_notes true demo_records [] [] with Ok (_, g) => g | Err _ => [] end.


Definition note_old_list : Note :=
  match parse_note rec_old_list with Ok n => n | Err _ => Note_init end.



(* ================================================================== *)
(** * Lemmas *)

Lemma append_assoc_s (a b c : string) : (a ++ b) ++ c = a ++ (b ++ c).
Proof. induction a; simpl; [reflexivity | now rewrite IHa]. Qed.

Lemma append_nil_s (a : string) : a ++ "" = a.
Proof. induction a; simpl; [reflexivity | now rewrite IHa]. Qed.

Lemma count_char_app (c : ascii) (a b : string) :
  count_char c (a ++ b) = count_char c a + count_char c b.
Proof. induction a as [|d a IH]; simpl; [reflexivity | rewrite IH; lia]. Qed.

Lemma find_char_app (c : ascii) (first rest : string) :
  find_char c first = None -> find_char c (first ++ String c rest) = Some (String.length first).
Proof.
  induction first as [|d first IH]; simpl.
  - now rewrite Ascii.eqb_refl.
  - destruct (Ascii.eqb c d); [discriminate|].
    destruct (find_char c first); [discriminate|]. intros _. now rewrite IH.
Qed.

Lemma take_app (a b : string) : take (String.length a) (a ++ b) = a.
Proof. induction a; simpl; [reflexivity | now rewrite IHa]. Qed.

Lemma drop_app (a b : string) : drop (String.length a) (a ++ b) = b.
Proof. induction a; simpl; [reflexivity | now rewrite IHa]. Qed.

Lemma make_title_split (first rest : string) :
  find_char nl_char first = None ->
  make_title "" (first ++ nl ++ rest) = (first, rest).
Proof.
  intros H. replace (first ++ nl ++ rest) with (first ++ String nl_char rest) by reflexivity.
  unfold make_title. simpl String.eqb. cbv iota beta.
  change (ascii_of_nat 10) with nl_char. rewrite (find_char_app _ _ _ H).
  rewrite take_app. f_equal.
  replace (String.length first + 1)%nat with (S (String.length first)) by lia.
  clear H. induction first; simpl; [reflexivity | exact IHfirst].
Qed.

Lemma make_title_no_newline (b : string) :
  find_char nl_char b = None -> make_title "" b = (b, "").
Proof. intros H. unfold make_title. simpl String.eqb. cbv iota. change (ascii_of_nat 10) with nl_char. now rewrite H. Qed.

Lemma toOrgString_unfold (unescape : string -> string) (n : Note) :
  toOrgString unescape n =
  (let '(orgTitle, b) := make_title (unescape (title n)) (normalized_body unescape n) in
   org_format (archived n) orgTitle b (map unescape (tags n)) (date n),
   set_tags (map unescape (tags n)) n).
Proof.
  unfold toOrgString. destruct (make_title _ _); reflexivity.
Qed.

Lemma fold_tags_app (ts : list string) (acc : string) :
  fold_left (fun tagString tag => tagString ++ tag ++ ":") ts acc
  = acc ++ fold_right (fun tag r => tag ++ ":" ++ r) "" ts.
Proof.
  revert acc. induction ts as [|t ts IH]; intros acc; simpl.
  - now rewrite append_nil_s.
  - rewrite IH, !append_assoc_s. reflexivity.
Qed.

Lemma tag_cells_join (t : string) (ts : list string) :
  fold_right (fun tag r => tag ++ ":" ++ r) "" (t :: ts) = join ":" (t :: ts) ++ ":".
Proof.
  revert t. induction ts as [|t' ts IH]; intros t.
  - simpl. reflexivity.
  - change (join ":" (t :: t' :: ts)) with (t ++ ":" ++ join ":" (t' :: ts)).
    simpl fold_right. simpl fold_right in IH. rewrite IH, !append_assoc_s. reflexivity.
Qed.

(** A [tagsToOrgString] of a non-empty list is [":" ++ ":".join(tags) ++ ":"]. *)
Lemma tagsToOrgString_join (t : string) (ts : list string) :
  tagsToOrgString (t :: ts) = ":" ++ join ":" (t :: ts) ++ ":".
Proof.
  unfold tagsToOrgString. rewrite fold_tags_app, tag_cells_join. reflexivity.
Qed.

Lemma count_char_tag_cells (l : list string) :
  count_char " "%char (fold_right (fun tag r => tag ++ ":" ++ r) "" l)
  = list_sum (map (count_char " "%char) l).
Proof.
  induction l as [|u l IH]; [reflexivity|].
  cbn [fold_right]. rewrite count_char_app.
  change (count_char " "%char (":" ++ ?x)) with (count_char " "%char x).
  rewrite IH. reflexivity.
Qed.

Lemma count_char_tagsToOrgString (ts : list string) :
  count_char " "%char (tagsToOrgString ts) = list_sum (map (count_char " "%char) ts).
Proof.
  destruct ts as [|t ts]; [reflexivity|].
  unfold tagsToOrgString. rewrite fold_tags_app.
  change (count_char " "%char (":" ++ ?x)) with (count_char " "%char x).
  apply count_char_tag_cells.
Qed.

Lemma org_format_body_and_tags (arch : bool) (t b : string) (ts : list string) (d : datetime) :
  b <> "" -> ts <> [] ->
  org_format arch t b ts d =
  "*" ++ (if arch then "*" else "") ++ " " ++ t ++ " " ++ b ++ nl ++ tagsToOrgString ts
  ++ nl ++ created_block d ++ nl.
Proof.
  intros Hb Hts. unfold org_format.
  destruct (String.eqb_spec b "") as [E|_]; [contradiction|].
  destruct ts as [|x ts]; [contradiction|]. reflexivity.
Qed.

Ltac destruct_matches :=
  repeat match goal with
  | |- context [match ?x with _ => _ end] => destruct x eqn:?
  | H : context [match ?x with _ => _ end] |- _ => destruct x eqn:?
  end.

Lemma parse_note_tags (r : keep_record) (n : Note) :
  parse_note r = Ok n -> tags n = [].
Proof.
  unfold parse_note, bind. intros H. destruct_matches; try discriminate;
  repeat match goal with E : Ok _ = Ok _ |- _ => injection E; clear E; intros end;
  subst; reflexivity.
Qed.

Lemma parse_note_no_content (r : keep_record) :
  textContent r = None -> listContent r = None -> exists e, parse_note r = Err e.
Proof.
  intros Ht Hl. unfold parse_note, bind. rewrite Ht, Hl.
  destruct_matches; eauto; discriminate.
Qed.

Lemma read_notes_err (splitByTag : bool) (rs1 rs2 : list keep_record) (r : keep_record)
    (e : py_error) :
  parse_note r = Err e ->
  forall st g, exists e', read_notes splitByTag (rs1 ++ r :: rs2) st g = Err e'.
Proof.
  intros He. induction rs1 as [|r1 rs1 IH]; intros st g; simpl.
  - rewrite He. simpl. eauto.
  - destruct (parse_note r1); simpl; eauto.
Qed.

Lemma add_untagged (k : nat) :
  add_to_group "Untagged" k (untagged_groups k) = untagged_groups (S k).
Proof.
  destruct k as [|k]; [reflexivity|]. unfold untagged_groups. simpl add_to_group.
  rewrite (seq_S (S k) 0). reflexivity.
Qed.

Lemma read_notes_untagged (splitByTag : bool) (rs : list keep_record) :
  forall st g st' g',
  read_notes splitByTag rs st g = Ok (st', g') ->
  Forall (fun n => tags n = []) st -> g = untagged_groups (length st) ->
  Forall (fun n => tags n = []) st' /\ g' = untagged_groups (length st') /\
  length st' = length st + length rs.
Proof.
  induction rs as [|r rs IH]; intros st g st' g' H Hst Hg; simpl in H.
  - injection H as <- <-. simpl. repeat split; auto; lia.
  - destruct (parse_note r) as [n|e] eqn:Hp; [|discriminate]. simpl in H.
    pose proof (parse_note_tags r n Hp) as Hn.
    apply IH in H.
    + destruct H as (H1 & H2 & H3). rewrite length_app in H3. simpl in H3.
      repeat split; auto; simpl; lia.
    + apply Forall_app. split; auto.
    + unfold assign_note. rewrite Hn, Hg.
      rewrite length_app. replace (length st + length [n]) with (S (length st))
        by (simpl; lia).
      destruct splitByTag; simpl fold_left; apply add_untagged.
Qed.


Lemma lookup_tags_nil (st : store) (i : nat) :
  Forall (fun n => tags n = []) st -> tags (lookup st i) = [].
Proof.
  intros H. unfold lookup. revert i. induction H as [|n st Hn H IH]; intros [|i];
  simpl; auto.
Qed.

Lemma update_lookup (st : store) (i : nat) : update st i (lookup st i) = st.
Proof.
  unfold lookup. revert i. induction st as [|n st IH]; intros [|i]; simpl; auto.
  now rewrite IH.
Qed.

Lemma toOrgString_tags_nil (unescape : string -> string) (n : Note) :
  tags n = [] -> snd (toOrgString unescape n) = n.
Proof.
  intros H. rewrite toOrgString_unfold. destruct (make_title _ _). simpl.
  rewrite H. destruct n; simpl in *; subst; reflexivity.
Qed.

Lemma group_loop_store_id (unescape : string -> string) (ids : list nat) :
  forall a l st, Forall (fun n => tags n = []) st ->
  snd (fold_left (group_step unescape) ids (a, l, st)) = st.
Proof.
  induction ids as [|i ids IH]; intros a l st Hst; [reflexivity|].
  simpl fold_left. cbn [group_step].
  pose proof (toOrgString_tags_nil unescape (lookup st i) (lookup_tags_nil st i Hst)) as E.
  destruct (toOrgString unescape (lookup st i)) as [s n'] eqn:Ht. simpl in E. subst n'.
  rewrite update_lookup. destruct (archived (lookup st i)); apply IH; exact Hst.
Qed.

Lemma render_group_store_id (unescape : string -> string) (inc : bool) (st : store)
    (group : list nat) :
  Forall (fun n => tags n = []) st -> snd (render_group unescape inc st group) = st.
Proof.
  intros Hst. unfold render_group, group_loop.
  pose proof (group_loop_store_id unescape (sort_by_date st group) [] [] st Hst) as E.
  destruct (fold_left _ _ _) as [[a l] st'] eqn:Hf. simpl in E. subst st'.
  destruct (negb _ && inc); reflexivity.
Qed.

Lemma write_groups_store_id (unescape : string -> string) (od : string) (inc : bool)
    (g : groups) :
  forall st, Forall (fun n => tags n = []) st ->
  snd (write_groups unescape od inc st g) = st.
Proof.
  induction g as [|[tag group] g IH]; intros st Hst; [reflexivity|]. simpl.
  pose proof (render_group_store_id unescape inc st group Hst) as E.
  destruct (render_group unescape inc st group) as [lines st'] eqn:Hr. simpl in E. subst st'.
  specialize (IH st Hst).
  destruct (write_groups unescape od inc st g) as [files st''] eqn:Hw. simpl in *. exact IH.
Qed.

(** ** Datetime order *)

Lemma lex_cmp_refl (a : list Z) : lex_cmp a a = Eq.
Proof. induction a; simpl; [reflexivity|]. now rewrite Z.compare_refl. Qed.

Lemma lex_cmp_eq (a b : list Z) : lex_cmp a b = Eq -> a = b.
Proof.
  revert b. induction a as [|x a IH]; intros [|y b]; simpl; try discriminate; auto.
  destruct (Z.compare_spec x y); try discriminate. intros H'. subst. f_equal. auto.
Qed.

Lemma lex_cmp_antisym (a b : list Z) : lex_cmp b a = CompOpp (lex_cmp a b).
Proof.
  revert b. induction a as [|x a IH]; intros [|y b]; simpl; auto.
  rewrite (Z.compare_antisym x y). destruct (Z.compare x y); simpl; auto.
Qed.

Lemma lex_cmp_lt_trans (a b c : list Z) :
  lex_cmp a b = Lt -> lex_cmp b c = Lt -> lex_cmp a c = Lt.
Proof.
  revert b c. induction a as [|x a IH]; intros [|y b] [|z c]; simpl; auto; try discriminate.
  destruct (Z.compare_spec x y), (Z.compare_spec y z); subst; intros H1 H2;
    try discriminate.
  - rewrite Z.compare_refl. eauto.
  - apply Z.compare_lt_iff in H0. now rewrite H0.
  - apply Z.compare_lt_iff in H. now rewrite H.
  - assert (x < z)%Z as Hxz by lia. apply Z.compare_lt_iff in Hxz. now rewrite Hxz.
Qed.

Lemma dt_le_trans (a b c : datetime) :
  dt_cmp a b <> Gt -> dt_cmp b c <> Gt -> dt_cmp a c <> Gt.
Proof.
  unfold dt_cmp. intros H1 H2.
  destruct (lex_cmp (dt_fields a) (dt_fields b)) eqn:E1; [|clear H1|contradiction].
  - apply lex_cmp_eq in E1. now rewrite E1.
  - destruct (lex_cmp (dt_fields b) (dt_fields c)) eqn:E2; [|clear H2|contradiction].
    + apply lex_cmp_eq in E2. rewrite <- E2, E1. discriminate.
    + rewrite (lex_cmp_lt_trans _ _ _ E1 E2). discriminate.
Qed.

Lemma dt_lt_le_trans (a b c : datetime) :
  dt_cmp a b = Lt -> dt_cmp b c <> Gt -> dt_cmp a c = Lt.
Proof.
  unfold dt_cmp. intros H1 H2.
  destruct (lex_cmp (dt_fields b) (dt_fields c)) eqn:E2; [|clear H2|contradiction].
  - apply lex_cmp_eq in E2. now rewrite <- E2.
  - exact (lex_cmp_lt_trans _ _ _ H1 E2).
Qed.

Lemma dt_not_lt_le (a b : datetime) : dt_ltb a b = false -> dt_cmp b a <> Gt.
Proof.
  unfold dt_ltb, dt_cmp. rewrite (lex_cmp_antisym (dt_fields a)).
  destruct (lex_cmp (dt_fields a) (dt_fields b)); simpl; discriminate.
Qed.

Lemma dt_lt_le (a b : datetime) : dt_ltb a b = true -> dt_cmp a b <> Gt.
Proof. unfold dt_ltb. destruct (dt_cmp a b); discriminate. Qed.

Lemma dt_eq_cmp (a b c : datetime) : dt_cmp a b = Eq -> dt_cmp a c = dt_cmp b c.
Proof. unfold dt_cmp. intros H. apply lex_cmp_eq in H. now rewrite H. Qed.

(** ** The stable sort *)

Section Sort.
Variable st : store.

Lemma insert_perm (i : nat) (l : list nat) : Permutation (i :: l) (insert_by_date st i l).
Proof.
  induction l as [|j l IH]; simpl; [reflexivity|].
  destruct (dt_ltb _ _); [reflexivity|].
  rewrite perm_swap. now constructor.
Qed.

Lemma sort_perm_acc (l acc : list nat) :
  Permutation (acc ++ l) (fold_left (fun acc i => insert_by_date st i acc) l acc).
Proof.
  revert acc. induction l as [|i l IH]; intros acc; simpl.
  - now rewrite app_nil_r.
  - rewrite <- IH. rewrite <- insert_perm. apply Permutation_sym, Permutation_middle.
Qed.

Lemma sort_by_date_perm (l : list nat) : Permutation l (sort_by_date st l).
Proof. exact (sort_perm_acc l []). Qed.

Lemma insert_hd (a i : nat) (l : list nat) :
  HdRel (date_le st) a l -> date_le st a i -> HdRel (date_le st) a (insert_by_date st i l).
Proof.
  intros H Hai. destruct l as [|j l]; simpl.
  - now constructor.
  - destruct (dt_ltb _ _); constructor; [exact Hai|]. now inversion H.
Qed.

Lemma insert_sorted (i : nat) (l : list nat) :
  Sorted (date_le st) l -> Sorted (date_le st) (insert_by_date st i l).
Proof.
  induction l as [|j l IH]; intros H; simpl.
  - repeat constructor.
  - destruct (dt_ltb _ _) eqn:E.
    + constructor; [exact H|]. constructor. now apply dt_lt_le.
    + inversion H as [|? ? Hl Hj]; subst. constructor; [now apply IH|].
      apply insert_hd; [exact Hj|]. now apply dt_not_lt_le.
Qed.

Lemma sort_sorted_acc (l acc : list nat) :
  Sorted (date_le st) acc ->
  Sorted (date_le st) (fold_left (fun acc i => insert_by_date st i acc) l acc).
Proof.
  revert acc. induction l as [|i l IH]; intros acc H; simpl; [exact H|].
  apply IH, insert_sorted, H.
Qed.

Lemma sort_by_date_sorted (l : list nat) : Sorted (date_le st) (sort_by_date st l).
Proof. apply sort_sorted_acc. constructor. Qed.

Lemma date_le_trans : Relations_1.Transitive (date_le st).
Proof. intros i j k. apply dt_le_trans. Qed.

Lemma filter_none_later (d a : datetime) (l : list nat) :
  dt_cmp a d = Eq -> (forall k, In k l -> dt_cmp a (date (lookup st k)) = Lt) ->
  filter (date_eqb d st) l = [].
Proof.
  intros Had. induction l as [|k l IH]; intros Hl; [reflexivity|]. simpl.
  unfold date_eqb at 1.
  assert (E : dt_cmp (date (lookup st k)) d = Gt).
  { unfold dt_cmp. apply lex_cmp_eq in Had. rewrite <- Had, lex_cmp_antisym.
    fold (dt_cmp a (date (lookup st k))). rewrite (Hl k (or_introl eq_refl)). reflexivity. }
  rewrite E. apply IH. intros k' Hk'. apply Hl. now right.
Qed.

Lemma insert_filter_eq (d : datetime) (i : nat) (l : list nat) :
  Sorted (date_le st) l ->
  filter (date_eqb d st) (insert_by_date st i l) =
  (filter (date_eqb d st) l ++ (if date_eqb d st i then [i] else []))%list.
Proof.
  induction l as [|j l IH]; intros H; simpl.
  - destruct (date_eqb d st i); reflexivity.
  - destruct (dt_ltb (date (lookup st i)) (date (lookup st j))) eqn:E.
    + (* every element from [j] on is strictly later than [i] *)
      assert (Hall : forall k, In k (j :: l) -> dt_cmp (date (lookup st i)) (date (lookup st k)) = Lt).
      { apply Sorted_StronglySorted in H; [|exact date_le_trans].
        intros k [<-|Hk].
        - unfold dt_ltb in E. destruct (dt_cmp _ _); congruence.
        - inversion H as [|? ? _ Hf]; subst. rewrite Forall_forall in Hf.
          apply dt_lt_le_trans with (date (lookup st j)).
          + unfold dt_ltb in E. destruct (dt_cmp _ _); congruence.
          + exact (Hf k Hk). }
      simpl. destruct (date_eqb d st i) eqn:Ei.
      * assert (Hnone : filter (date_eqb d st) (j :: l) = []).
        { apply filter_none_later with (date (lookup st i)); [|exact Hall].
          unfold date_eqb in Ei. destruct (dt_cmp _ d); congruence. }
        simpl in Hnone. rewrite Hnone. reflexivity.
      * simpl. now rewrite app_nil_r.
    + inversion H; subst. simpl. rewrite IH by assumption.
      destruct (date_eqb d st j); reflexivity.
Qed.

Lemma sort_filter_acc (d : datetime) (l acc : list nat) :
  Sorted (date_le st) acc ->
  filter (date_eqb d st) (fold_left (fun acc i => insert_by_date st i acc) l acc) =
  (filter (date_eqb d st) acc ++ filter (date_eqb d st) l)%list.
Proof.
  revert acc. induction l as [|i l IH]; intros acc H; simpl.
  - now rewrite app_nil_r.
  - rewrite IH by (now apply insert_sorted). rewrite insert_filter_eq by exact H.
    rewrite <- app_assoc. destruct (date_eqb d st i); reflexivity.
Qed.

Lemma sort_by_date_stable (d : datetime) (l : list nat) :
  filter (date_eqb d st) (sort_by_date st l) = filter (date_eqb d st) l.
Proof. unfold sort_by_date. rewrite sort_filter_acc by constructor. reflexivity. Qed.

Lemma sorted_filter (f : nat -> bool) (l : list nat) :
  Sorted (date_le st) l -> Sorted (date_le st) (filter f l).
Proof.
  intros H. apply StronglySorted_Sorted. apply Sorted_StronglySorted in H;
    [|exact date_le_trans].
  revert H. induction l as [|a l IH]; intros H; simpl; [constructor|].
  apply StronglySorted_inv in H. destruct H as [Hl Ha].
  destruct (f a); [|exact (IH Hl)]. constructor; [exact (IH Hl)|].
  rewrite Forall_forall in *. intros x Hx. apply filter_In in Hx. apply Ha, Hx.
Qed.

End Sort.

(** ** Rendering a group on the shared store *)

Lemma lookup_update (st : store) (i j : nat) (n : Note) :
  lookup (update st i n) j = if Nat.eqb i j && Nat.ltb i (length st) then n else lookup st j.
Proof.
  unfold lookup. revert i j. induction st as [|m st IH]; intros [|i] [|j]; simpl;
    rewrite ?Bool.andb_false_r; auto.
Qed.

Lemma update_comm (st : store) (i j : nat) (n m : Note) :
  i <> j -> update (update st i n) j m = update (update st j m) i n.
Proof.
  revert i j. induction st as [|k st IH]; intros [|i] [|j] H; simpl; auto.
  - contradiction.
  - rewrite IH by congruence. reflexivity.
Qed.

Lemma render_seq_frame (unescape : string -> string) (l : list nat) :
  forall st i n, ~ In i l ->
  fst (render_seq unescape (update st i n) l) = fst (render_seq unescape st l).
Proof.
  induction l as [|j l IH]; intros st i n Hi; [reflexivity|]. simpl.
  assert (Hij : i <> j) by (intros ->; apply Hi; now left).
  assert (E : lookup (update st i n) j = lookup st j).
  { rewrite lookup_update. apply Nat.eqb_neq in Hij. now rewrite Hij. }
  rewrite E, update_comm by exact Hij. rewrite IH by (intros H; apply Hi; now right).
  reflexivity.
Qed.

Lemma render_seq_length (unescape : string -> string) (l : list nat) :
  forall st, length (fst (render_seq unescape st l)) = length l.
Proof. induction l as [|i l IH]; intros st; simpl; [reflexivity|]. now rewrite IH. Qed.

(** Rendering a note keeps the archived flag and the date of every index. *)
Lemma update_render_keeps (unescape : string -> string) (st : store) (i j : nat) :
  let st1 := update st i (snd (toOrgString unescape (lookup st i))) in
  arch_at st1 j = arch_at st j /\ date (lookup st1 j) = date (lookup st j).
Proof.
  simpl. unfold arch_at. rewrite lookup_update.
  destruct (Nat.eqb_spec i j) as [<-|]; [|auto].
  destruct (Nat.ltb i (length st)); simpl; [|auto].
  rewrite toOrgString_unfold. destruct (make_title _ _). simpl. auto.
Qed.

(** The loop of lines 227-231 renders all notes in order on one store, and
    its two accumulators are the blocks of the archived notes and of the
    active notes, each rendered in order. *)
Lemma group_fold_split (unescape : string -> string) (l : list nat) :
  forall st a b,
  fold_left (group_step unescape) l (a, b, st) =
  ((a ++ fst (render_seq unescape st (filter (arch_at st) l)))%list,
   (b ++ fst (render_seq unescape st (filter (fun i => negb (arch_at st i)) l)))%list,
   snd (render_seq unescape st l)).
Proof.
  induction l as [|i l IH]; intros st a b; simpl.
  - now rewrite !app_nil_r.
  - cbn [group_step].
    pose proof (fun j => proj1 (update_render_keeps unescape st i j)) as Hk.
    simpl in Hk.
    destruct (toOrgString unescape (lookup st i)) as [s n'] eqn:Et. simpl in Hk |- *.
    set (st1 := update st i n') in *.
    assert (Ea : filter (arch_at st1) l = filter (arch_at st) l).
    { apply filter_ext. intros j. apply Hk. }
    assert (Eb : filter (fun j => negb (arch_at st1 j)) l
                 = filter (fun j => negb (arch_at st j)) l).
    { apply filter_ext. intros j. now rewrite Hk. }
    change (archived (lookup st i)) with (arch_at st i).
    destruct (arch_at st i) eqn:Ei; rewrite IH, Ea, Eb; simpl; rewrite Et; simpl; fold st1.
    + unfold st1. rewrite (render_seq_frame unescape (filter (fun j => negb (arch_at st j)) l)).
      * now rewrite <- app_assoc.
      * intros Hin. apply filter_In in Hin. rewrite Ei in Hin. destruct Hin; discriminate.
    + unfold st1. rewrite (render_seq_frame unescape (filter (arch_at st) l)).
      * now rewrite <- app_assoc.
      * intros Hin. apply filter_In in Hin. rewrite Ei in Hin. destruct Hin; discriminate.
Qed.

(** ** Replacement, trimming and file names *)

Lemma replace_ne_single (c : ascii) (f : nat) (s : string) :
  String.length s <= f -> replace_ne f (String c "") "" s = remove_char c s.
Proof.
  revert s. induction f as [|f IH]; intros [|d r] Hl; simpl in Hl |- *; try reflexivity.
  - lia.
  - destruct (ascii_dec c d) as [<-|Hne].
    + rewrite Ascii.eqb_refl. simpl.
      replace (String.prefix "" r) with true by (destruct r; reflexivity). apply IH. lia.
    + apply Ascii.eqb_neq in Hne. rewrite Hne. f_equal. apply IH. lia.
Qed.

Lemma py_replace_single (c : ascii) (s : string) :
  py_replace (String c "") "" s = remove_char c s.
Proof. unfold py_replace. simpl String.eqb. cbv iota. now apply replace_ne_single. Qed.

Lemma count_remove_char (c : ascii) (s : string) : count_char c (remove_char c s) = 0.
Proof.
  induction s as [|d r IH]; simpl; [reflexivity|].
  destruct (Ascii.eqb c d) eqn:E; simpl; [exact IH|]. rewrite E, IH. reflexivity.
Qed.

Lemma count_remove_other (c d : ascii) (s : string) :
  count_char c s = 0 -> count_char c (remove_char d s) = 0.
Proof.
  induction s as [|e r IH]; simpl; [reflexivity|]. intros H.
  destruct (Ascii.eqb d e); simpl; [apply IH; lia|].
  destruct (Ascii.eqb c e); simpl in *; [lia|]. apply IH; lia.
Qed.

Lemma remove_char_idem (c : ascii) (s : string) : remove_char c (remove_char c s) = remove_char c s.
Proof.
  induction s as [|d r IH]; simpl; [reflexivity|].
  destruct (Ascii.eqb c d) eqn:E; simpl; [exact IH|]. rewrite E, IH. reflexivity.
Qed.

Lemma remove_char_comm (c d : ascii) (s : string) :
  remove_char c (remove_char d s) = remove_char d (remove_char c s).
Proof.
  induction s as [|e r IH]; simpl; [reflexivity|].
  destruct (Ascii.eqb d e) eqn:Ed, (Ascii.eqb c e) eqn:Ec; simpl;
    rewrite ?Ed, ?Ec, IH; reflexivity.
Qed.

Lemma replace_ne_absent (old new : string) (f : nat) (s : string) :
  occurs old s = false -> replace_ne f old new s = s.
Proof.
  revert s. induction f as [|f IH]; intros [|c r] H; try reflexivity.
  cbn [occurs] in H. apply Bool.orb_false_iff in H. destruct H as [H1 H2].
  cbn [replace_ne]. rewrite H1. f_equal. exact (IH r H2).
Qed.

Lemma py_replace_absent (old new s : string) :
  occurs old s = false -> py_replace old new s = s.
Proof.
  intros H. unfold py_replace. destruct (String.eqb_spec old "") as [->|_].
  - destruct s; simpl in H; discriminate.
  - now apply replace_ne_absent.
Qed.

Lemma fold_replace_absent (h : string -> string) (l : list string) (s : string) :
  (forall f, In f l -> occurs f s = false) ->
  fold_left (fun b f => py_replace f (h f) b) l s = s.
Proof.
  induction l as [|f l IH]; intros H; simpl; [reflexivity|].
  rewrite py_replace_absent by (apply H; now left). apply IH. intros g Hg. apply H. now right.
Qed.

Lemma lstrip_head (s : string) (c : ascii) :
  head_char (lstrip s) = Some c -> is_space c = false.
Proof.
  induction s as [|d r IH]; simpl; [discriminate|].
  destruct (is_space d) eqn:E; [exact IH|]. intros H. injection H as <-. exact E.
Qed.

Lemma rstrip_head (s : string) (c : ascii) :
  head_char (rstrip s) = Some c -> head_char s = Some c.
Proof.
  destruct s as [|d r]; simpl; [discriminate|].
  destruct (String.eqb (rstrip r) "" && is_space d); simpl; [discriminate|auto].
Qed.

Lemma rstrip_last (s : string) (c : ascii) :
  last_char (rstrip s) = Some c -> is_space c = false.
Proof.
  induction s as [|d r IH]; simpl; [discriminate|].
  destruct (String.eqb_spec (rstrip r) "") as [E|E]; simpl.
  - rewrite E. destruct (is_space d) eqn:Ed; simpl; [discriminate|].
    intros H. injection H as <-. exact Ed.
  - destruct (rstrip r) as [|a q]; [contradiction|]. exact IH.
Qed.

(** ** Titles, search and paths *)

Lemma find_char_some (c : ascii) (b : string) (i : nat) :
  find_char c b = Some i ->
  b = take i b ++ String c (drop (S i) b) /\ find_char c (take i b) = None.
Proof.
  revert i. induction b as [|d r IH]; intros i H; simpl in H; [discriminate|].
  destruct (Ascii.eqb_spec c d) as [<-|Hne].
  - injection H as <-. simpl. auto.
  - destruct (find_char c r) as [j|] eqn:Ej; [|discriminate]. injection H as <-.
    destruct (IH j eq_refl) as [E1 E2]. simpl. split; [f_equal; exact E1|].
    apply Ascii.eqb_neq in Hne. rewrite Hne, E2. reflexivity.
Qed.

Lemma length_app_s (a b : string) :
  String.length (a ++ b) = String.length a + String.length b.
Proof. induction a; simpl; [reflexivity | now rewrite IHa]. Qed.

Lemma drop_add_app (a b : string) (k : nat) : drop (String.length a + k) (a ++ b) = drop k b.
Proof. induction a; simpl; [reflexivity | exact IHa]. Qed.

Lemma prefix_app (a b : string) : String.prefix a (a ++ b) = true.
Proof.
  induction a as [|c a IH]; simpl; [destruct b; reflexivity|].
  destruct (ascii_dec c c); [exact IH | contradiction].
Qed.





Lemma endswith_app (suffix a f : string) :
  endswith suffix f = true -> endswith suffix (a ++ f) = true.
Proof.
  unfold endswith. intros H. apply andb_prop in H. destruct H as [H1 H2].
  apply Nat.leb_le in H1. rewrite length_app_s.
  replace (String.length a + String.length f - String.length suffix)
    with (String.length a + (String.length f - String.length suffix)) by lia.
  rewrite drop_add_app, H2, Bool.andb_true_r. apply Nat.leb_le. lia.
Qed.

Lemma os_path_join_suffix (root file : string) : exists p, os_path_join root file = p ++ file.
Proof.
  unfold os_path_join.
  destruct (String.prefix "/" file); [now exists ""|].
  destruct (String.eqb root "" || endswith "/" root); [now exists root|].
  exists (root ++ "/"). now rewrite append_assoc_s.
Qed.

Lemma walk_inner (root : string) (files acc : list string) :
  fold_left (fun jsonFiles file =>
               if endswith ".json" file then (jsonFiles ++ [os_path_join root file])%list
               else jsonFiles) files acc
  = (acc ++ map (os_path_join root) (filter (endswith ".json") files))%list.
Proof.
  revert acc. induction files as [|f files IH]; intros acc; simpl; [now rewrite app_nil_r|].
  destruct (endswith ".json" f); rewrite IH; [|reflexivity]. now rewrite <- app_assoc.
Qed.

Lemma filter_all {A} (f : A -> bool) (l : list A) :
  (forall x, In x l -> f x = true) -> filter f l = l.
Proof.
  induction l as [|x l IH]; intros H; simpl; [reflexivity|].
  rewrite (H x (or_introl eq_refl)), IH; [reflexivity|]. intros y Hy. apply H. now right.
Qed.

Lemma filter_none {A} (f : A -> bool) (l : list A) :
  (forall x, In x l -> f x = false) -> filter f l = [].
Proof.
  induction l as [|x l IH]; intros H; simpl; [reflexivity|].
  rewrite (H x (or_introl eq_refl)). apply IH. intros y Hy. apply H. now right.
Qed.

(** ** Reading the records *)



Lemma get_ok {A} (k : string) (x : option A) (v : A) : get k x = Ok v -> x = Some v.
Proof. destruct x; simpl; congruence. Qed.


Lemma read_notes_ok_store (splitByTag : bool) (rs : list keep_record) :
  forall st g st' g',
  read_notes splitByTag rs st g = Ok (st', g') ->
  exists ns, st' = (st ++ ns)%list /\ Forall2 (fun r n => parse_note r = Ok n) rs ns.
Proof.
  induction rs as [|r rs IH]; intros st g st' g' H; simpl in H.
  - injection H as <- <-. exists []. now rewrite app_nil_r.
  - destruct (parse_note r) as [n|e] eqn:Hp; [|discriminate]. simpl in H.
    destruct (IH _ _ _ _ H) as (ns & E & Hf). exists (n :: ns).
    rewrite E, <- app_assoc. auto.
Qed.

Lemma read_notes_all_ok (splitByTag : bool) (rs : list keep_record) (ns : list Note) :
  Forall2 (fun r n => parse_note r = Ok n) rs ns ->
  forall st g, exists g', read_notes splitByTag rs st g = Ok ((st ++ ns)%list, g').
Proof.
  induction 1 as [|r n rs ns Hp _ IH]; intros st g; simpl.
  - exists g. now rewrite app_nil_r.
  - rewrite Hp. simpl. destruct (IH (st ++ [n])%list (assign_note splitByTag (length st) n g))
      as [g' E]. exists g'. now rewrite E, <- app_assoc.
Qed.


(** ** The list conversion on list markup *)

Lemma length_drop (n : nat) (s : string) : String.length (drop n s) = String.length s - n.
Proof.
  revert s. induction n as [|n IH]; intros [|c s]; simpl; try reflexivity. apply IH.
Qed.

Lemma replace_ne_fuel (old new : string) : old <> "" ->
  forall f f' s, String.length s <= f -> String.length s <= f' ->
  replace_ne f old new s = replace_ne f' old new s.
Proof.
  intros Hne f. induction f as [|f IH]; intros f' s H1 H2.
  - destruct s; simpl in H1; [|lia]. destruct f'; reflexivity.
  - destruct s as [|c r]; [destruct f'; reflexivity|].
    destruct f' as [|f']; [simpl in H2; lia|]. cbn [replace_ne].
    destruct (String.prefix old (String c r)).
    + f_equal.
      assert (Hl : String.length (drop (String.length old) (String c r)) <= String.length r).
      { rewrite length_drop. destruct old as [|a o]; [contradiction|]. simpl. lia. }
      apply IH; simpl in *; lia.
    + f_equal. apply IH; simpl in *; lia.
Qed.

Lemma py_replace_rep (old new s : string) : old <> "" -> py_replace old new s = rep old new s.
Proof.
  intros H. unfold py_replace. destruct (String.eqb_spec old ""); [contradiction|reflexivity].
Qed.

Lemma rep_nil (old new : string) : rep old new "" = "".
Proof. reflexivity. Qed.

Lemma rep_hit (old new r : string) : old <> "" -> rep old new (old ++ r) = new ++ rep old new r.
Proof.
  intros Hne. destruct old as [|c o]; [contradiction|]. unfold rep.
  change (String c o ++ r) with (String c (o ++ r)). cbn [String.length replace_ne].
  replace (String.prefix (String c o) (String c (o ++ r))) with true
    by (symmetry; exact (prefix_app (String c o) r)).
  change (drop (S (String.length o)) (String c (o ++ r))) with
    (drop (String.length o) (o ++ r)).
  rewrite drop_app. f_equal. apply replace_ne_fuel; [discriminate | |lia].
  rewrite length_app_s. lia.
Qed.

Lemma mismatch_prefix (o x r : string) : mismatch o x = true -> String.prefix o (x ++ r) = false.
Proof.
  revert o. induction x as [|b x IH]; intros [|a o] H; simpl in H |- *; try discriminate.
  destruct (ascii_dec a b) as [<-|Hne].
  - rewrite Ascii.eqb_refl in H. apply IH, H.
  - reflexivity.
Qed.

Lemma rep_clean (o n a r : string) : clean o a = true -> rep o n (a ++ r) = a ++ rep o n r.
Proof.
  induction a as [|c a IH]; intros H; [reflexivity|].
  cbn [clean] in H. apply andb_prop in H. destruct H as [H1 H2].
  unfold rep. change (String c a ++ r) with (String c (a ++ r)).
  cbn [String.length replace_ne].
  change (String c (a ++ r)) with (String c a ++ r) at 1.
  rewrite (mismatch_prefix _ _ _ H1). simpl. f_equal. exact (IH H2).
Qed.

Lemma clean_text (c0 : ascii) (o t : string) :
  count_char c0 t = 0 -> clean (String c0 o) t = true.
Proof.
  induction t as [|c t IH]; intros H; [reflexivity|]. simpl in H |- *.
  destruct (Ascii.eqb c0 c) eqn:E; [simpl in H; lia|]. apply IH. lia.
Qed.

Lemma render_segs_app (a b : list seg) :
  render_segs (a ++ b) = render_segs a ++ render_segs b.
Proof.
  induction a as [|sg a IH]; [reflexivity|]. simpl. now rewrite IH, append_assoc_s.
Qed.

Lemma rep_segs (p : string * string) (ps : list seg) (r : string) :
  fst p <> "" -> Forall (fun sg => seg_okb (fst p) sg = true) ps ->
  rep (fst p) (snd p) (render_segs ps ++ r)
  = render_segs (map (seg_pass p) ps) ++ rep (fst p) (snd p) r.
Proof.
  intros Hne Hok. induction Hok as [|sg ps Hsg _ IH]; [reflexivity|].
  cbn [render_segs map]. rewrite !append_assoc_s. destruct sg as [s|t]; cbn [seg_str seg_pass].
  - cbn [seg_okb] in Hsg. destruct (String.eqb_spec s (fst p)) as [->|_]; cbn [seg_str].
    + rewrite rep_hit by exact Hne. now rewrite IH.
    + rewrite rep_clean by exact Hsg. now rewrite IH.
  - cbn [seg_okb] in Hsg. rewrite rep_clean by exact Hsg. now rewrite IH.
Qed.

Lemma passes_segs (P : list (string * string)) :
  forallb (fun p => negb (String.eqb (fst p) "")) P = true ->
  forall ps, Forall (fun sg => chain_okb P sg = true) ps ->
  fold_left (fun s p => py_replace (fst p) (snd p) s) P (render_segs ps)
  = render_segs (map (seg_chain P) ps).
Proof.
  induction P as [|p P IH]; intros Hne ps Hok; simpl.
  - f_equal. symmetry. apply map_id.
  - apply andb_prop in Hne. destruct Hne as [Hp Hne].
    assert (Hp' : fst p <> "") by (intros E; rewrite E in Hp; discriminate).
    rewrite py_replace_rep by exact Hp'.
    rewrite <- (append_nil_s (render_segs ps)), rep_segs, rep_nil, append_nil_s.
    + rewrite IH by (exact Hne || (apply Forall_map; eapply Forall_impl; [|exact Hok];
                     intros sg H; simpl in H; apply andb_prop in H; apply H)).
      rewrite map_map. reflexivity.
    + exact Hp'.
    + eapply Forall_impl; [|exact Hok]. intros sg H. simpl in H. apply andb_prop in H. apply H.
Qed.

Lemma chain_okb_txt (P : list (string * string)) (t : string) :
  chain_okb P (Txt t) = forallb (fun p => clean (fst p) t) P.
Proof. induction P as [|p P IH]; simpl; [reflexivity|]. now rewrite IH. Qed.

Lemma seg_chain_txt (P : list (string * string)) (t : string) : seg_chain P (Txt t) = Txt t.
Proof. unfold seg_chain. induction P as [|p P IH]; simpl; auto. Qed.

Lemma forallb_clean_head (c0 : ascii) (P : list (string * string)) (t : string) :
  forallb (fun p => match fst p with String c _ => Ascii.eqb c c0 | _ => false end) P = true ->
  count_char c0 t = 0 -> forallb (fun p => clean (fst p) t) P = true.
Proof.
  induction P as [|[o n] P IH]; intros H Ht; [reflexivity|]. simpl in H |- *.
  apply andb_prop in H. destruct H as [H1 H2]. rewrite IH by assumption.
  destruct o as [|c o]; [discriminate|]. apply Ascii.eqb_eq in H1. subst c.
  now rewrite clean_text.
Qed.

Lemma Forall_flat_map_intro {A B} (P : B -> Prop) (f : A -> list B) (l : list A) :
  (forall x, In x l -> Forall P (f x)) -> Forall P (flat_map f l).
Proof.
  induction l as [|x l IH]; intros H; simpl; [constructor|].
  apply Forall_app. split; [apply H; now left|]. apply IH. intros y Hy. apply H. now right.
Qed.

Lemma org_list_markup_passes (b : string) :
  org_list_markup b
  = fold_left (fun s p => py_replace (fst p) (snd p) s) fix_passes
      (fold_left (fun s p => py_replace (fst p) (snd p) s) markup_passes b).
Proof. reflexivity. Qed.

Lemma list_markup_segs (items : list (bool * string)) :
  list_markup items
  = render_segs (Lit ul_open :: flat_map item_segs items ++ [Lit "</ul>"])%list.
Proof.
  assert (E : forall l, items_markup l = render_segs (flat_map item_segs l)).
  { induction l as [|[c t] l IH]; [reflexivity|].
    cbn [items_markup flat_map]. rewrite render_segs_app, IH.
    unfold item_markup, item_segs. cbn [render_segs seg_str].
    rewrite !append_assoc_s. reflexivity. }
  unfold list_markup. cbn [render_segs seg_str]. rewrite render_segs_app, E. reflexivity.
Qed.

Lemma plain_item_text_spec (t : string) :
  plain_item_text t = true ->
  t <> "" /\ count_char "<"%char t = 0 /\ count_char "-"%char t = 0 /\ count_char nl_char t = 0.
Proof.
  unfold plain_item_text. intros H. repeat (apply andb_prop in H; destruct H as [H ?]).
  apply Bool.negb_true_iff, String.eqb_neq in H.
  repeat split; auto; apply Nat.eqb_eq; assumption.
Qed.

Lemma mismatch_app_l (o a b : string) : mismatch o a = true -> mismatch o (a ++ b) = true.
Proof.
  revert o. induction a as [|c a IH]; intros [|d o] H; simpl in H |- *; try discriminate.
  destruct (Ascii.eqb d c); [apply IH, H | reflexivity].
Qed.

Lemma mismatch_same (a x y : string) : mismatch (a ++ x) (a ++ y) = mismatch x y.
Proof. induction a as [|c a IH]; [reflexivity|]. simpl. now rewrite Ascii.eqb_refl. Qed.

Lemma clean_cons_app (o : string) (c : ascii) (a t : string) :
  clean o (String c a ++ t) = mismatch o (String c a ++ t) && clean o (a ++ t).
Proof. reflexivity. Qed.

Lemma clean_box_text (o : string) (checked : bool) (t : string) :
  In o listTypesToFixNewLines -> t <> "" -> count_char "-"%char t = 0 ->
  count_char nl_char t = 0 ->
  clean o ((if checked then "- [X] " else "- [ ] ") ++ t) = true.
Proof.
  intros Ho Ht Hd Hn. destruct t as [|c t]; [contradiction|].
  assert (Ec : Ascii.eqb nl_char c = false).
  { destruct (Ascii.eqb nl_char c) eqn:E; [|reflexivity].
    cbn [count_char] in Hn. rewrite E in Hn. simpl in Hn. lia. }
  assert (Hsame : forall b, mismatch (b ++ nl) (b ++ String c t) = true).
  { intros b. rewrite mismatch_same. unfold nl, chr. cbn [mismatch].
    change (ascii_of_nat 10) with nl_char. now rewrite Ec. }
  unfold listTypesToFixNewLines in Ho. destruct Ho as [<-|[<-|[]]]; destruct checked;
    rewrite clean_cons_app, andb_true_iff; split;
    try apply Hsame;
    try (apply mismatch_app_l; vm_compute; reflexivity);
    apply (clean_text "-"%char); rewrite count_char_app; rewrite Hd; reflexivity.
Qed.

Ltac eval_lit_chains :=
  repeat match goal with |- context [seg_chain ?P (Lit ?s)] =>
    let v := eval vm_compute in (seg_chain P (Lit s)) in change (seg_chain P (Lit s)) with v
  end.

Lemma markup_passes_items (items : list (bool * string)) :
  forallb (fun it => plain_item_text (snd it)) items = true ->
  Forall (fun sg => chain_okb markup_passes sg = true) (flat_map item_segs items)
  /\ render_segs (map (seg_chain markup_passes) (flat_map item_segs items))
     = render_segs (flat_map item_segs2 items).
Proof.
  induction items as [|[c t] items IH]; intros H; [split; [constructor|reflexivity]|].
  cbn [forallb snd] in H. apply andb_prop in H. destruct H as [Ht H].
  destruct (plain_item_text_spec t Ht) as (_ & Hlt & _ & _).
  destruct (IH H) as [IH1 IH2]. cbn [flat_map]. split.
  - apply Forall_app. split; [|exact IH1]. unfold item_segs.
    apply Forall_cons; [destruct c; vm_compute; reflexivity|].
    apply Forall_cons; [vm_compute; reflexivity|].
    apply Forall_cons; [rewrite chain_okb_txt; apply (forallb_clean_head "<"%char);
                        [vm_compute; reflexivity | exact Hlt]|].
    repeat (apply Forall_cons; [vm_compute; reflexivity|]). constructor.
  - rewrite map_app, !render_segs_app, IH2. f_equal.
    unfold item_segs, item_segs2. cbn [map]. rewrite seg_chain_txt.
    destruct c; eval_lit_chains; cbn [render_segs seg_str];
      rewrite ?append_nil_s; reflexivity.
Qed.

Lemma fix_passes_items (items : list (bool * string)) :
  forallb (fun it => plain_item_text (snd it)) items = true ->
  Forall (fun sg => chain_okb fix_passes sg = true) (flat_map item_segs2 items)
  /\ render_segs (map (seg_chain fix_passes) (flat_map item_segs2 items))
     = checkbox_lines items.
Proof.
  induction items as [|[c t] items IH]; intros H; [split; [constructor|reflexivity]|].
  cbn [forallb snd] in H. apply andb_prop in H. destruct H as [Ht H].
  destruct (plain_item_text_spec t Ht) as (Hne & _ & Hd & Hn).
  destruct (IH H) as [IH1 IH2]. cbn [flat_map]. split.
  - apply Forall_app. split; [|exact IH1]. unfold item_segs2.
    apply Forall_cons; [|apply Forall_cons; [vm_compute; reflexivity|constructor]].
    rewrite chain_okb_txt. apply forallb_forall. intros p Hp.
    unfold fix_passes in Hp. apply in_map_iff in Hp. destruct Hp as [l [<- Hl]].
    cbn [fst]. apply clean_box_text; assumption.
  - rewrite map_app, !render_segs_app, IH2. cbn [checkbox_lines checkbox_line].
    unfold item_segs2. cbn [map]. rewrite seg_chain_txt. eval_lit_chains.
    cbn [render_segs seg_str]. rewrite append_nil_s, !append_assoc_s. reflexivity.
Qed.

(** ** Attachments and the report *)

Lemma py_slice_drop3 (s : string) : py_slice 0 (-3) s = take (String.length s - 3) s.
Proof.
  unfold py_slice. cbn [Z.ltb Z.compare].
  replace (Z.min 0 (Z.of_nat (String.length s))) with 0%Z by lia.
  destruct (Z.leb_spec (Z.max 0 (-3 + Z.of_nat (String.length s))) 0) as [H|H].
  - replace (String.length s - 3) with 0 by lia. destruct s; reflexivity.
  - replace (Z.to_nat (Z.max 0 (-3 + Z.of_nat (String.length s)) - 0))
      with (String.length s - 3) by lia. reflexivity.
Qed.

Lemma filter_perm {A} (f : A -> bool) (l l' : list A) :
  Permutation l l' -> Permutation (filter f l) (filter f l').
Proof.
  induction 1 as [|x l l' _ IH|x y l|l l' l'' _ IH1 _ IH2]; simpl.
  - constructor.
  - destruct (f x); [constructor|]; exact IH.
  - destruct (f x), (f y); try apply perm_swap; apply Permutation_refl.
  - eapply Permutation_trans; eassumption.
Qed.

Lemma length_filter_map {A B} (g : B -> bool) (h : A -> B) (l : list A) :
  length (filter g (map h l)) = length (filter (fun x => g (h x)) l).
Proof. induction l as [|x l IH]; simpl; [reflexivity|]. destruct (g (h x)); simpl; auto. Qed.

Lemma filter_seq_lookup (p : Note -> bool) (st : store) :
  length (filter (fun i => p (lookup st i)) (seq 0 (length st))) = length (filter p st).
Proof.
  induction st as [|x st IH]; [reflexivity|].
  cbn [length seq filter]. change (lookup (x :: st) 0) with x.
  destruct (p x); cbn [length]; [f_equal|]; rewrite <- seq_shift, length_filter_map;
    exact IH.
Qed.

Lemma numNotesWritten_untagged (k : nat) : numNotesWritten (untagged_groups k) = k.
Proof.
  destruct k as [|k]; [reflexivity|]. unfold numNotesWritten, untagged_groups.
  cbn [fold_left snd]. now rewrite length_seq.
Qed.

Lemma render_group_active_length (unescape : string -> string) (st : store) (group : list nat) :
  length (fst (render_group unescape false st group))
  = length (filter (fun i => negb (arch_at st i)) group).
Proof.
  unfold render_group, group_loop. rewrite group_fold_split. simpl.
  rewrite Bool.andb_false_r. simpl. rewrite render_seq_length.
  apply Permutation_length, filter_perm. symmetry. apply sort_by_date_perm.
Qed.

(** ** Timestamps *)



(* ================================================================== *)
(** * Claims *)

(** ** Rendering *)

(** C1 (counterexample): a note with title "T", body "q" and the tag "x"
    has a non-empty normalized body and a tag, yet its rendering contains
    the body only once, so the body is not repeated after the metadata. *)
Lemma C1_body_not_repeated :
  normalized_body html_unescape note_body_tags <> "" /\ tags note_body_tags <> [] /\
  ~ body_repeated_after_metadata html_unescape note_body_tags.
Proof.
  split; [vm_compute; discriminate|]. split; [discriminate|].
  unfold body_repeated_after_metadata.
  replace (make_title _ _) with ("T", "q") by (vm_compute; reflexivity).
  intros [s1 [s2 [s3 [tail H]]]].
  apply (f_equal (count_char "q"%char)) in H.
  assert (E : count_char "q"%char (fst (toOrgString html_unescape note_body_tags)) = 1)
    by (vm_compute; reflexivity).
  rewrite E in H. rewrite !count_char_app in H. simpl count_char at 5 in H.
  simpl in H. lia.
Qed.

(** C1 (amended): when the normalized body [b] and the tag list are both
    non-empty, the entry is the heading marker, the title and [b] on the
    heading line, then the tag string, then the metadata block and a final
    line break; the body is not emitted a second time. *)
Theorem toOrgString_body_and_tags (unescape : string -> string) (n : Note) (t b : string) :
  make_title (unescape (title n)) (normalized_body unescape n) = (t, b) ->
  b <> "" -> tags n <> [] ->
  fst (toOrgString unescape n) =
  "*" ++ (if archived n then "*" else "") ++ " " ++ t ++ " " ++ b ++ nl
  ++ tagsToOrgString (map unescape (tags n)) ++ nl ++ created_block (date n) ++ nl.
Proof.
  intros Ht Hb Hts. rewrite toOrgString_unfold, Ht. simpl fst.
  apply org_format_body_and_tags; [exact Hb|].
  destruct (tags n); [contradiction | discriminate].
Qed.

Lemma toOrgString_body_and_tags_witness :
  make_title (html_unescape (title note_body_tags)) (normalized_body html_unescape note_body_tags)
    = ("T", "q") /\
  fst (toOrgString html_unescape note_body_tags) =
  "*" ++ "" ++ " " ++ "T" ++ " " ++ "q" ++ nl ++ tagsToOrgString ["x"] ++ nl
  ++ created_block (datetime_ymd 2000 1 1) ++ nl.
Proof.
  split; [vm_compute; reflexivity|].
  apply (toOrgString_body_and_tags html_unescape note_body_tags "T" "q").
  - vm_compute; reflexivity.
  - discriminate.
  - discriminate.
Defined.

(** C9: when the unescaped title is empty, a normalized body [first ++ "\n"
    ++ rest] whose [first] has no line break renders with title [first] and
    body [rest]; a body without a line break becomes the title and the
    rendered body is empty. *)
Theorem toOrgString_derived_title (unescape : string -> string) (n : Note) :
  unescape (title n) = "" ->
  (forall first rest,
     find_char nl_char first = None ->
     normalized_body unescape n = first ++ nl ++ rest ->
     fst (toOrgString unescape n) =
     org_format (archived n) first rest (map unescape (tags n)) (date n)) /\
  (find_char nl_char (normalized_body unescape n) = None ->
   fst (toOrgString unescape n) =
   org_format (archived n) (normalized_body unescape n) "" (map unescape (tags n)) (date n)).
Proof.
  intros Ht. split.
  - intros first rest Hf Hb. rewrite toOrgString_unfold, Ht, Hb, make_title_split by exact Hf.
    reflexivity.
  - intros Hf. rewrite toOrgString_unfold, Ht, make_title_no_newline by exact Hf.
    reflexivity.
Qed.

Lemma toOrgString_derived_title_witness :
  html_unescape (title note_two_lines) = "" /\
  fst (toOrgString html_unescape note_two_lines) =
  org_format false "Shopping" "eggs" [] (datetime_ymd 2000 1 1).
Proof.
  split; [reflexivity|].
  apply (proj1 (toOrgString_derived_title html_unescape note_two_lines eq_refl)
           "Shopping" "eggs").
  - reflexivity.
  - vm_compute; reflexivity.
Defined.

(** C10 (counterexample): a tag that contains a space is copied into the
    tag string with its space. *)
Lemma C10_tag_string_with_space :
  ~ (forall ts, count_char " "%char (tagsToOrgString ts) = 0).
Proof.
  intros H. specialize (H ["my tag"]). vm_compute in H. discriminate.
Qed.

(** C10 (amended): the tag string of no tags is empty; otherwise it is a
    leading colon, the tags in order joined by colons, and a trailing
    colon; its spaces are exactly those of the tags themselves. *)
Theorem tagsToOrgString_shape :
  tagsToOrgString [] = "" /\
  (forall t ts, tagsToOrgString (t :: ts) = ":" ++ join ":" (t :: ts) ++ ":") /\
  (forall ts, count_char " "%char (tagsToOrgString ts)
              = list_sum (map (count_char " "%char) ts)).
Proof.
  split; [reflexivity|]. split.
  - exact tagsToOrgString_join.
  - exact count_char_tagsToOrgString.
Qed.

(** ** Parsing and grouping *)

(** C2: in every run, every note read has an empty tag list; the groups
    built are exactly the "Untagged" group holding every note (none when
    there are no records), whatever [splitByTag] is; and the only file
    written is [outputDir/Untagged.org]. *)
Theorem read_notes_only_untagged (unescape : string -> string) (rs : list keep_record)
    (outputDir : string) (includeArchived splitByTag : bool) (st : store) (g : groups) :
  read_notes splitByTag rs [] [] = Ok (st, g) ->
  Forall (fun n => tags n = []) st /\
  g = untagged_groups (length rs) /\
  main unescape rs outputDir includeArchived splitByTag
    = Ok (fst (write_groups unescape outputDir includeArchived st g)) /\
  (forall f, In f (fst (write_groups unescape outputDir includeArchived st g)) ->
             fst f = outputDir ++ "/Untagged.org").
Proof.
  intros H.
  destruct (read_notes_untagged splitByTag rs [] [] st g H (Forall_nil _) eq_refl)
    as (H1 & H2 & H3).
  simpl in H3. rewrite H3 in H2.
  split; [exact H1|]. split; [exact H2|]. split.
  - unfold main. rewrite H. reflexivity.
  - subst g. intros f Hf. destruct (length rs) as [|k]; [destruct Hf|].
    unfold untagged_groups, write_groups in Hf.
    destruct (render_group unescape includeArchived st (seq 0 (S k))) as [lines st'].
    destruct Hf as [<-|[]]. reflexivity.
Qed.

Lemma read_notes_only_untagged_witness :
  read_notes true demo_records [] [] = Ok (demo_store, demo_groups) /\
  demo_groups = untagged_groups 2.
Proof.
  split; [vm_compute; reflexivity|].
  apply (read_notes_only_untagged html_unescape demo_records "out" true true
           demo_store demo_groups).
  vm_compute; reflexivity.
Defined.

(** C3: every note [main] reads is in the group of each of its tags, and a
    note without tags is in exactly one group, "Untagged", and in no other
    group.  Parsing gives every note an empty tag list, so the first part
    holds of every note read (there is no tag to check) and every note is
    in the "Untagged" group only. *)
Theorem read_notes_groups (splitByTag : bool) (rs : list keep_record) (st : store)
    (g : groups) :
  read_notes splitByTag rs [] [] = Ok (st, g) ->
  forall i, i < length st ->
  (forall t, In t (tags (lookup st i)) -> exists ids, group_of t g = Some ids /\ In i ids) /\
  (tags (lookup st i) = [] ->
     (exists ids, group_of "Untagged" g = Some ids /\ In i ids) /\
     (forall k ids, In (k, ids) g -> In i ids -> k = "Untagged")).
Proof.
  intros H i Hi.
  destruct (read_notes_untagged splitByTag rs [] [] st g H (Forall_nil _) eq_refl)
    as (Ht & Hg & _).
  rewrite (lookup_tags_nil st i Ht). split; [intros t []|intros _].
  subst g. destruct (length st) as [|k] eqn:E; [lia|]. unfold untagged_groups. split.
  - exists (seq 0 (S k)). split; [reflexivity|]. apply in_seq. lia.
  - intros k' ids [E'|[]] _. now injection E' as <- _.
Qed.

Lemma read_notes_groups_witness :
  read_notes true demo_records [] [] = Ok (demo_store, demo_groups) /\ 1 < length demo_store /\
  tags (lookup demo_store 1) = [] /\
  exists ids, group_of "Untagged" demo_groups = Some ids /\ In 1 ids.
Proof.
  assert (H : read_notes true demo_records [] [] = Ok (demo_store, demo_groups))
    by (vm_compute; reflexivity).
  assert (Hl : 1 < length demo_store) by (vm_compute; lia).
  assert (Ht : tags (lookup demo_store 1) = []) by (vm_compute; reflexivity).
  split; [exact H|]. split; [exact Hl|]. split; [exact Ht|].
  exact (proj1 (proj2 (read_notes_groups true demo_records demo_store demo_groups H 1 Hl) Ht)).
Defined.

(** C4 (code bug): the default date of [Note()] is overwritten
    unconditionally.  A record whose flags are present but whose
    [createdTimestampUsec] is missing raises [KeyError], which ends the
    whole run; a timestamp outside the range of [fromtimestamp] raises
    too.  No fallback to 2000-01-01 happens. *)
Theorem parse_note_timestamp_raises (r : keep_record) :
  (isArchived r = Some true \/ (isArchived r = Some false /\ isTrashed r <> None)) ->
  (createdTimestampUsec r = None ->
     parse_note r = Err (KeyError "createdTimestampUsec") /\
     forall unescape rs outputDir includeArchived splitByTag,
       main unescape (r :: rs) outputDir includeArchived splitByTag
       = Err (KeyError "createdTimestampUsec")) /\
  (forall usec, createdTimestampUsec r = Some usec -> fromtimestamp_usec usec = None ->
     parse_note r = Err (TimestampError usec)).
Proof.
  intros Ha.
  destruct Ha as [Ha|[Ha Ht]].
  - split.
    + intros Hu. unfold parse_note. simpl bind at 1. rewrite Ha. simpl. rewrite Hu.
      split; [reflexivity|]. intros. unfold main. simpl. unfold parse_note. rewrite Ha.
      simpl. rewrite Hu. reflexivity.
    + intros usec Hu Hf. unfold parse_note. rewrite Ha. simpl. rewrite Hu. simpl.
      rewrite Hf. reflexivity.
  - destruct (isTrashed r) as [tr|] eqn:Et; [|contradiction]. split.
    + intros Hu. unfold parse_note. rewrite Ha. simpl. rewrite Et. simpl. rewrite Hu.
      split; [reflexivity|]. intros. unfold main. simpl. unfold parse_note. rewrite Ha.
      simpl. rewrite Et. simpl. rewrite Hu. reflexivity.
    + intros usec Hu Hf. unfold parse_note. rewrite Ha. simpl. rewrite Et. simpl.
      rewrite Hu. simpl. rewrite Hf. reflexivity.
Qed.

Lemma parse_note_timestamp_raises_witness :
  (isArchived rec_no_timestamp = Some true \/
   (isArchived rec_no_timestamp = Some false /\ isTrashed rec_no_timestamp <> None)) /\
  parse_note rec_no_timestamp = Err (KeyError "createdTimestampUsec") /\
  parse_note rec_far_timestamp = Err (TimestampError 400000000000000000).
Proof.
  assert (Hf : isArchived rec_no_timestamp = Some true \/
               (isArchived rec_no_timestamp = Some false /\ isTrashed rec_no_timestamp <> None))
    by (right; split; [reflexivity|discriminate]).
  split; [exact Hf|]. split.
  - exact (proj1 (proj1 (parse_note_timestamp_raises rec_no_timestamp Hf) eq_refl)).
  - assert (Hg : isArchived rec_far_timestamp = Some true \/
                 (isArchived rec_far_timestamp = Some false /\ isTrashed rec_far_timestamp <> None))
      by (right; split; [reflexivity|discriminate]).
    apply (proj2 (parse_note_timestamp_raises rec_far_timestamp Hg)).
    + reflexivity.
    + vm_compute. reflexivity.
Defined.

(** C5: the notes [main] keeps are the notes parsed from the records, in
    order (grouping and reading the later records change none of them), and
    writing the groups, which renders every note, leaves every note (title,
    body, tags, archived flag, date, images) as it was. *)
Theorem write_groups_keeps_notes (unescape : string -> string) (rs : list keep_record)
    (outputDir : string) (includeArchived splitByTag : bool) (st : store) (g : groups) :
  read_notes splitByTag rs [] [] = Ok (st, g) ->
  Forall2 (fun r n => parse_note r = Ok n) rs st /\
  snd (write_groups unescape outputDir includeArchived st g) = st.
Proof.
  intros H.
  destruct (read_notes_ok_store _ _ _ _ _ _ H) as (ns & Hns & Hf). simpl in Hns. subst ns.
  split; [exact Hf|].
  destruct (read_notes_untagged splitByTag rs [] [] st g H (Forall_nil _) eq_refl)
    as (H1 & _ & _).
  apply write_groups_store_id. exact H1.
Qed.

Lemma write_groups_keeps_notes_witness :
  read_notes true demo_records [] [] = Ok (demo_store, demo_groups) /\
  snd (write_groups html_unescape "out" true demo_store demo_groups) = demo_store.
Proof.
  assert (H : read_notes true demo_records [] [] = Ok (demo_store, demo_groups))
    by (vm_compute; reflexivity).
  split; [exact H|].
  exact (proj2 (write_groups_keeps_notes html_unescape demo_records "out" true true
                  demo_store demo_groups H)).
Defined.

(** C6 (counterexample): a record with [textContent] but without the
    [isArchived] key also fails to parse. *)
Lemma C6_error_with_content :
  ~ (forall r, (exists e, parse_note r = Err e) <->
               (textContent r = None /\ listContent r = None)).
Proof.
  intros H. destruct (proj1 (H rec_no_archived_flag)) as [Ht _].
  - exists (KeyError "isArchived"). reflexivity.
  - discriminate.
Qed.

(** C6 (amended): a record with neither [textContent] nor [listContent]
    makes parsing raise, and the run raises whatever records surround it,
    before any file is written; parsing also raises on records that do
    have content, for instance when [isArchived] is missing. *)
Theorem parse_error_no_content :
  (forall r, textContent r = None -> listContent r = None ->
     (exists e, parse_note r = Err e) /\
     (forall unescape rs1 rs2 outputDir includeArchived splitByTag,
        exists e, main unescape (rs1 ++ r :: rs2) outputDir includeArchived splitByTag
                  = Err e)) /\
  (forall r, isArchived r = None -> parse_note r = Err (KeyError "isArchived")).
Proof.
  split.
  - intros r Ht Hl. destruct (parse_note_no_content r Ht Hl) as [e He].
    split; [eauto|]. intros unescape rs1 rs2 outputDir includeArchived splitByTag.
    destruct (read_notes_err splitByTag rs1 rs2 r e He [] []) as [e' He'].
    exists e'. unfold main. rewrite He'. reflexivity.
  - intros r Ha. unfold parse_note. rewrite Ha. reflexivity.
Qed.

Lemma parse_error_no_content_witness :
  (exists e, parse_note rec_no_content = Err e) /\
  (exists e, main html_unescape (rec_milk :: rec_no_content :: []) "out" true true = Err e) /\
  parse_note rec_no_archived_flag = Err (KeyError "isArchived").
Proof.
  destruct (proj1 parse_error_no_content rec_no_content eq_refl eq_refl) as [H1 H2].
  split; [exact H1|]. split.
  - exact (H2 html_unescape [rec_milk] [] "out" true true).
  - exact (proj2 parse_error_no_content rec_no_archived_flag eq_refl).
Defined.

(** ** Writing a group *)

(** C7: for a group with an archived note and [includeArchived] set, the
    lines written are the header "* *Archived*", then the blocks of the
    archived notes, then the blocks of the active notes (each in sorted
    order); with [includeArchived] unset, only the blocks of the active
    notes are written. *)
Theorem render_group_archived_first :
  (forall unescape st group,
     (exists i, In i group /\ arch_at st i = true) ->
     let sorted := sort_by_date st group in
     fst (render_group unescape true st group) =
     archived_header ::
       (fst (render_seq unescape st (filter (arch_at st) sorted))
        ++ fst (render_seq unescape st (filter (fun i => negb (arch_at st i)) sorted)))%list) /\
  (forall unescape st group,
     let sorted := sort_by_date st group in
     fst (render_group unescape false st group) =
     fst (render_seq unescape st (filter (fun i => negb (arch_at st i)) sorted))).
Proof.
  split.
  - intros unescape st group [i [Hi Ha]] sorted.
    unfold render_group, group_loop. fold sorted. rewrite group_fold_split. simpl.
    rewrite render_seq_length.
    assert (Hin : In i (filter (arch_at st) sorted)).
    { apply filter_In. split; [|exact Ha].
      apply Permutation_in with group; [apply sort_by_date_perm | exact Hi]. }
    destruct (filter (arch_at st) sorted) as [|j A]; [destruct Hin|]. reflexivity.
  - intros unescape st group sorted.
    unfold render_group, group_loop. fold sorted. rewrite group_fold_split. simpl.
    rewrite Bool.andb_false_r. reflexivity.
Qed.

Lemma render_group_archived_first_witness :
  (exists i, In i [0; 1] /\ arch_at demo_store i = true) /\
  fst (render_group html_unescape true demo_store [0; 1]) =
  archived_header ::
    (fst (render_seq html_unescape demo_store
            (filter (arch_at demo_store) (sort_by_date demo_store [0; 1])))
     ++ fst (render_seq html_unescape demo_store
               (filter (fun i => negb (arch_at demo_store i))
                  (sort_by_date demo_store [0; 1]))))%list.
Proof.
  assert (H : exists i, In i [0; 1] /\ arch_at demo_store i = true).
  { exists 1. split; [right; left; reflexivity | vm_compute; reflexivity]. }
  split; [exact H|].
  exact (proj1 render_group_archived_first html_unescape demo_store [0; 1] H).
Defined.

(** C8: the notes of a group are sorted by a stable sort: the result is a
    permutation of the group, ordered by non-decreasing date, and the notes
    of any one date keep their relative order; the archived and the active
    notes, whose blocks the loop writes in this order, are each in
    non-decreasing date order. *)
Theorem sort_by_date_stable_sorted (unescape : string -> string) (st : store)
    (group : list nat) :
  let sorted := sort_by_date st group in
  Permutation group sorted /\
  Sorted (date_le st) sorted /\
  (forall d, filter (date_eqb d st) sorted = filter (date_eqb d st) group) /\
  Sorted (date_le st) (filter (arch_at st) sorted) /\
  Sorted (date_le st) (filter (fun i => negb (arch_at st i)) sorted) /\
  fst (fst (group_loop unescape st sorted))
    = fst (render_seq unescape st (filter (arch_at st) sorted)) /\
  snd (fst (group_loop unescape st sorted))
    = fst (render_seq unescape st (filter (fun i => negb (arch_at st i)) sorted)).
Proof.
  intros sorted.
  pose proof (sort_by_date_sorted st group) as Hs. fold sorted in Hs.
  split; [apply sort_by_date_perm|]. split; [exact Hs|]. split.
  - intros d. apply sort_by_date_stable.
  - split; [now apply sorted_filter|]. split; [now apply sorted_filter|].
    unfold group_loop. rewrite group_fold_split. split; reflexivity.
Qed.

(* ================================================================== *)
(** * Further properties *)

(** ** File names and text normalization *)

(** [makeSafeFilename] deletes every "/" and then every "." and keeps the
    other characters in order; its result holds neither character, and
    applying it again changes nothing. *)
Theorem makeSafeFilename_safe (s : string) :
  makeSafeFilename s = remove_char "." (remove_char "/" s) /\
  count_char "/" (makeSafeFilename s) = 0 /\
  count_char "." (makeSafeFilename s) = 0 /\
  makeSafeFilename (makeSafeFilename s) = makeSafeFilename s.
Proof.
  assert (E : forall x, makeSafeFilename x = remove_char "." (remove_char "/" x)).
  { intros x. unfold makeSafeFilename. now rewrite !py_replace_single. }
  rewrite !E. split; [reflexivity|]. split; [|split].
  - apply count_remove_other, count_remove_char.
  - apply count_remove_char.
  - rewrite (remove_char_comm "/" "."), !remove_char_idem. reflexivity.
Qed.

(** A body in which none of the list markup fragments occurs passes the
    list conversion of lines 58-75 unchanged. *)
Theorem org_list_markup_plain (b : string) :
  forallb (fun f => negb (occurs f b)) markup_fragments = true ->
  org_list_markup b = b.
Proof.
  intros H. rewrite forallb_forall in H.
  assert (Hf : forall f, In f markup_fragments -> occurs f b = false).
  { intros f Hin. apply H in Hin. now destruct (occurs f b). }
  unfold org_list_markup. cbv zeta.
  rewrite (py_replace_absent unchecked_item) by (apply Hf; simpl; auto).
  rewrite (py_replace_absent checked_item) by (apply Hf; simpl; auto).
  pose proof (fold_replace_absent (fun _ => "") htmlTagsToErase b) as E1.
  cbv beta in E1. rewrite E1.
  - apply fold_replace_absent. intros f Hin. apply Hf. unfold markup_fragments. right. right.
    apply in_or_app. now right.
  - intros f Hin. apply Hf. unfold markup_fragments. right. right.
    apply in_or_app. now left.
Qed.

Lemma org_list_markup_plain_witness :
  forallb (fun f => negb (occurs f "Buy milk")) markup_fragments = true /\
  org_list_markup "Buy milk" = "Buy milk".
Proof.
  split; [vm_compute; reflexivity|]. apply org_list_markup_plain. vm_compute. reflexivity.
Defined.

(** For a note without attachments, the body [toOrgString] works with
    (line 92) neither starts nor ends with a whitespace character. *)
Theorem normalized_body_trimmed (unescape : string -> string) (n : Note) :
  images n = [] ->
  forall c, head_char (normalized_body unescape n) = Some c
            \/ last_char (normalized_body unescape n) = Some c ->
  is_space c = false.
Proof.
  intros Hi c. unfold normalized_body, imageLinks. rewrite Hi. cbn [map join].
  rewrite append_nil_s. unfold strip. intros [H|H].
  - apply (lstrip_head _ _ (rstrip_head _ _ H)).
  - exact (rstrip_last _ _ H).
Qed.

Lemma normalized_body_trimmed_witness :
  images note_body_tags = [] /\
  (forall c, head_char (normalized_body html_unescape note_body_tags) = Some c
             \/ last_char (normalized_body html_unescape note_body_tags) = Some c ->
   is_space c = false).
Proof.
  split; [reflexivity|]. apply (normalized_body_trimmed html_unescape note_body_tags).
  reflexivity.
Defined.

(** [make_title] with an empty title loses nothing: the derived title holds
    no newline, and the body is the title, a newline and the new body, or
    the title alone when the body has no newline (lines 98-105). *)
Theorem make_title_lossless (b t r : string) :
  make_title "" b = (t, r) ->
  find_char nl_char t = None /\ (b = t ++ nl ++ r \/ (b = t /\ r = "")).
Proof.
  unfold make_title. simpl String.eqb. cbv iota. change (ascii_of_nat 10) with nl_char.
  destruct (find_char nl_char b) as [i|] eqn:Ei; intros H; injection H as <- <-.
  - destruct (find_char_some _ _ _ Ei) as [E1 E2]. split; [exact E2|]. left.
    replace (i + 1) with (S i) by lia. exact E1.
  - auto.
Qed.

Lemma make_title_lossless_witness :
  make_title "" ("Shopping" ++ nl ++ "eggs") = ("Shopping", "eggs") /\
  find_char nl_char "Shopping" = None /\
  ("Shopping" ++ nl ++ "eggs" = "Shopping" ++ nl ++ "eggs"
   \/ ("Shopping" ++ nl ++ "eggs" = "Shopping" /\ "eggs" = "")).
Proof.
  assert (H : make_title "" ("Shopping" ++ nl ++ "eggs") = ("Shopping", "eggs"))
    by (vm_compute; reflexivity).
  split; [exact H|]. exact (make_title_lossless _ _ _ H).
Defined.

(** Every block [toOrgString] renders starts with the heading "*" (two
    stars for an archived note), a space and the title, and contains the
    metadata block with the note's date. *)
Theorem toOrgString_heading (unescape : string -> string) (n : Note) :
  let '(t, b) := make_title (unescape (title n)) (normalized_body unescape n) in
  (exists rest, fst (toOrgString unescape n)
                = "*" ++ (if archived n then "*" else "") ++ " " ++ t ++ rest) /\
  (exists a z, fst (toOrgString unescape n) = a ++ created_block (date n) ++ z).
Proof.
  rewrite toOrgString_unfold. destruct (make_title _ _) as [t b]. cbn [fst].
  unfold org_format. cbv zeta.
  set (N := if archived n then "*" else "").
  set (C := created_block (date n)). set (T := tagsToOrgString (map unescape (tags n))).
  destruct (String.eqb b "") eqn:Eb, (Nat.eqb (length (map unescape (tags n))) 0) eqn:El;
    cbn [negb orb andb]; fold T; (split; [eexists; reflexivity|]).
  - exists ("*" ++ N ++ " " ++ t ++ nl), "". rewrite !append_assoc_s, append_nil_s.
    reflexivity.
  - exists ("*" ++ N ++ " " ++ t ++ " " ++ T ++ nl), nl. rewrite !append_assoc_s.
    reflexivity.
  - exists ("*" ++ N ++ " " ++ t ++ nl), (nl ++ b). rewrite !append_assoc_s. reflexivity.
  - exists ("*" ++ N ++ " " ++ t ++ " " ++ b ++ nl ++ T ++ nl), nl.
    rewrite !append_assoc_s. reflexivity.
Qed.

(** ** Writing *)

(** [main] writes one file per group, in the order the groups were
    created, named [outputDir/<makeSafeFilename tag>.org] (line 222). *)
Theorem write_groups_files (unescape : string -> string) (outputDir : string)
    (includeArchived : bool) (g : groups) :
  forall st,
  map fst (fst (write_groups unescape outputDir includeArchived st g))
  = map (fun p => outputDir ++ "/" ++ makeSafeFilename (fst p) ++ ".org") g.
Proof.
  induction g as [|[tag group] g IH]; intros st; simpl; [reflexivity|].
  destruct (render_group unescape includeArchived st group) as [lines st1].
  specialize (IH st1).
  destruct (write_groups unescape outputDir includeArchived st1 g) as [files st2].
  simpl in *. now rewrite IH.
Qed.

(** A group without archived notes is written as its notes' blocks in
    sorted order, with no "* *Archived*" header, whatever [includeArchived]
    is. *)
Theorem render_group_no_archived (unescape : string -> string) (includeArchived : bool)
    (st : store) (group : list nat) :
  (forall i, In i group -> arch_at st i = false) ->
  fst (render_group unescape includeArchived st group)
  = fst (render_seq unescape st (sort_by_date st group)).
Proof.
  intros H. unfold render_group, group_loop. rewrite group_fold_split.
  assert (Hs : forall i, In i (sort_by_date st group) -> arch_at st i = false).
  { intros i Hi. apply H. apply Permutation_in with (sort_by_date st group); [|exact Hi].
    symmetry. apply sort_by_date_perm. }
  rewrite (filter_none _ _ Hs).
  rewrite (filter_all (fun i => negb (arch_at st i))) by (intros i Hi; now rewrite Hs).
  reflexivity.
Qed.

Lemma render_group_no_archived_witness :
  (forall i, In i [0] -> arch_at demo_store i = false) /\
  fst (render_group html_unescape true demo_store [0])
  = fst (render_seq html_unescape demo_store (sort_by_date demo_store [0])).
Proof.
  assert (H : forall i, In i [0] -> arch_at demo_store i = false).
  { intros i [<-|[]]. vm_compute. reflexivity. }
  split; [exact H|]. exact (render_group_no_archived html_unescape true demo_store [0] H).
Defined.

(** ** The helper functions of the file *)



(** [getAllNoteHtmlFiles] returns, in walk order, the path of every file
    whose name ends in ".json", joined to its directory; every path it
    returns ends in ".json". *)
Theorem getAllNoteHtmlFiles_json (walk : list (string * list string * list string)) :
  getAllNoteHtmlFiles walk
  = flat_map (fun '(root, _, files) =>
                map (os_path_join root) (filter (endswith ".json") files)) walk /\
  Forall (fun p => endswith ".json" p = true) (getAllNoteHtmlFiles walk).
Proof.
  assert (E : getAllNoteHtmlFiles walk
              = flat_map (fun '(root, _, files) =>
                            map (os_path_join root) (filter (endswith ".json") files)) walk).
  { unfold getAllNoteHtmlFiles.
    assert (G : forall acc,
      fold_left
        (fun jsonFiles '(root, dirs, files) =>
           fold_left
             (fun jsonFiles file =>
                if endswith ".json" file then (jsonFiles ++ [os_path_join root file])%list
                else jsonFiles)
             files jsonFiles)
        walk acc
      = (acc ++ flat_map (fun '(root, _, files) =>
                map (os_path_join root) (filter (endswith ".json") files)) walk)%list).
    { induction walk as [|[[root dirs] files] walk IH]; intros acc; simpl.
      - now rewrite app_nil_r.
      - rewrite walk_inner, IH. now rewrite app_assoc. }
    apply G. }
  split; [exact E|]. rewrite E. apply Forall_forall. intros p Hp.
  apply in_flat_map in Hp. destruct Hp as [[[root dirs] files] [_ Hp]].
  apply in_map_iff in Hp. destruct Hp as [f [<- Hf]]. apply filter_In in Hf.
  destruct (os_path_join_suffix root f) as [q ->]. apply endswith_app. apply Hf.
Qed.

(** ** Reading the records *)

(** What a parsed note holds (lines 170-200): it is archived exactly when
    [isArchived] or [isTrashed] is true; its title is the record's title;
    it has no tags;
    its body is [textContent] when present, otherwise "List:", a newline and
    the list items' texts joined by newlines; its images are the
    attachments' [filePath]s in order. *)
Theorem parse_note_ok_fields (r : keep_record) (n : Note) :
  parse_note r = Ok n ->
  (archived n = true <-> isArchived r = Some true \/ isTrashed r = Some true) /\
  r_title r = Some (title n) /\
  tags n = [] /\
  (textContent r = Some (body n) \/
   (textContent r = None /\
    exists items text, listContent r = Some items /\ mapM (get "text") items = Ok text /\
                       body n = "List:" ++ nl ++ join nl text)) /\
  match attachments r with
  | None => images n = []
  | Some atts => mapM (get "filePath") atts = Ok (images n)
  end.
Proof.
  intros H. unfold parse_note, bind in H. destruct_matches; try discriminate;
  repeat match goal with E : Ok _ = Ok _ |- _ => injection E; clear E; intros end;
  repeat match goal with E : get _ _ = Ok _ |- _ => apply get_ok in E end;
  subst; cbn [archived date title tags body images set_archived set_date set_title
              set_body set_images Note_init];
  repeat match goal with E : String.eqb _ "" = true |- _ => apply String.eqb_eq in E; subst end.
  all: split;
    [split; [intros E0; try discriminate; first [left; assumption | right; assumption]
            | intros [E0|E0]; congruence] |].
  all: split; [assumption|]. all: split; [reflexivity|].
  all: split;
    [first [left; reflexivity
           | right; split; [reflexivity|]; do 2 eexists; split; [reflexivity|];
             split; [eassumption | reflexivity]]|].
  all: reflexivity.
Qed.


Lemma parse_note_ok_fields_witness :
  let n := note_old_list in
  parse_note rec_old_list = Ok n /\
  ((archived n = true <-> isArchived rec_old_list = Some true \/ isTrashed rec_old_list = Some true) /\
   r_title rec_old_list = Some (title n) /\
   tags n = [] /\
   (textContent rec_old_list = Some (body n) \/
    (textContent rec_old_list = None /\
     exists items text, listContent rec_old_list = Some items /\
                        mapM (get "text") items = Ok text /\
                        body n = "List:" ++ nl ++ join nl text)) /\
   match attachments rec_old_list with
   | None => images n = []
   | Some atts => mapM (get "filePath") atts = Ok (images n)
   end).
Proof.
  intros n. assert (E : parse_note rec_old_list = Ok n) by (vm_compute; reflexivity).
  split; [exact E|]. exact (parse_note_ok_fields rec_old_list n E).
Defined.







(** The read loop of [main] succeeds exactly when every record parses, and
    the notes it keeps are the parsed records, in the order of the input. *)
Theorem read_notes_in_order (splitByTag : bool) (rs : list keep_record) :
  (forall st g, read_notes splitByTag rs [] [] = Ok (st, g) ->
     Forall2 (fun r n => parse_note r = Ok n) rs st) /\
  (forall ns, Forall2 (fun r n => parse_note r = Ok n) rs ns ->
     exists g, read_notes splitByTag rs [] [] = Ok (ns, g)).
Proof.
  split.
  - intros st g H. destruct (read_notes_ok_store _ _ _ _ _ _ H) as (ns & -> & Hf). exact Hf.
  - intros ns Hf. exact (read_notes_all_ok splitByTag rs ns Hf [] []).
Qed.

Lemma read_notes_in_order_witness :
  Forall2 (fun r n => parse_note r = Ok n) demo_records demo_store /\
  exists g, read_notes true demo_records [] [] = Ok (demo_store, g).
Proof.
  assert (H : Forall2 (fun r n => parse_note r = Ok n) demo_records demo_store).
  { unfold demo_records.
    replace demo_store with [lookup demo_store 0; lookup demo_store 1]
      by (vm_compute; reflexivity).
    apply Forall2_cons; [vm_compute; reflexivity|].
    apply Forall2_cons; [vm_compute; reflexivity|]. apply Forall2_nil. }
  split; [exact H|]. exact (proj2 (read_notes_in_order true demo_records) demo_store H).
Defined.



(** ** List conversion, attachments and the report *)

(** List markup as Keep exports it (a [ul] element of checkbox items, each
    with its text in a [span]) becomes one org checkbox line per item,
    "- [ ] text" or "- [X] text", when no item text holds "<", "-" or a
    newline and none is empty. *)
Theorem org_list_markup_items (items : list (bool * string)) :
  forallb (fun it => plain_item_text (snd it)) items = true ->
  org_list_markup (list_markup items) = checkbox_lines items.
Proof.
  intros H. destruct (markup_passes_items items H) as [M1 M2].
  destruct (fix_passes_items items H) as [F1 F2].
  rewrite org_list_markup_passes, list_markup_segs.
  rewrite passes_segs by
    (vm_compute; reflexivity ||
     (apply Forall_cons; [vm_compute; reflexivity|]; apply Forall_app; split;
      [exact M1 | apply Forall_cons; [vm_compute; reflexivity | constructor]])).
  cbn [map]. rewrite map_app. cbn [map]. eval_lit_chains.
  cbn [render_segs seg_str]. rewrite render_segs_app, M2. cbn [render_segs seg_str].
  rewrite !append_nil_s. change ("" ++ ?x) with x.
  rewrite passes_segs by (vm_compute; reflexivity || exact F1).
  exact F2.
Qed.

Lemma org_list_markup_items_witness :
  forallb (fun it => plain_item_text (snd it)) [(false, "milk"); (true, "eggs")] = true /\
  org_list_markup (list_markup [(false, "milk"); (true, "eggs")])
  = checkbox_lines [(false, "milk"); (true, "eggs")].
Proof.
  assert (H : forallb (fun it => plain_item_text (snd it)) [(false, "milk"); (true, "eggs")]
              = true) by (vm_compute; reflexivity).
  split; [exact H | exact (org_list_markup_items _ H)].
Defined.

(** The attachment copy tries [filePath], then [filePath] with its last
    three characters replaced by "jpg", then by "jpeg", each under
    [keepHtmlDir], and copies the first that exists.  For a three-letter
    extension that is the same name with a ".jpg" or ".jpeg" extension; a
    [filePath] shorter than three characters falls back to the names "jpg"
    and "jpeg" themselves. *)
Theorem attachment_source_fallback (path_exists : string -> bool) (keepHtmlDir : string) :
  (forall b e, String.length e = 3 ->
     attachment_source path_exists keepHtmlDir (b ++ e)
     = find path_exists [os_path_join keepHtmlDir (b ++ e);
                         os_path_join keepHtmlDir (b ++ "jpg");
                         os_path_join keepHtmlDir (b ++ "jpeg")]) /\
  (forall fp, String.length fp < 3 ->
     attachment_source path_exists keepHtmlDir fp
     = find path_exists [os_path_join keepHtmlDir fp;
                         os_path_join keepHtmlDir "jpg";
                         os_path_join keepHtmlDir "jpeg"]).
Proof.
  split.
  - intros b e He. unfold attachment_source. rewrite py_slice_drop3, length_app_s, He.
    replace (String.length b + 3 - 3) with (String.length b) by lia. rewrite take_app.
    cbn [find]. destruct (path_exists _); [reflexivity|].
    destruct (path_exists _); [reflexivity|]. destruct (path_exists _); reflexivity.
  - intros fp Hfp. unfold attachment_source. rewrite py_slice_drop3.
    replace (String.length fp - 3) with 0 by lia. cbn [take append find].
    destruct (path_exists _); [reflexivity|].
    destruct (path_exists _); [reflexivity|]. destruct (path_exists _); reflexivity.
Qed.

Lemma attachment_source_fallback_witness :
  String.length "png" = 3 /\
  attachment_source (fun p => String.eqb p "Takeout/IMG.jpg") "Takeout" ("IMG." ++ "png")
  = Some "Takeout/IMG.jpg" /\
  String.length "ab" < 3 /\
  attachment_source (fun p => String.eqb p "Takeout/jpeg") "Takeout" "ab"
  = Some "Takeout/jpeg".
Proof.
  assert (H1 : String.length "png" = 3) by reflexivity.
  assert (H2 : String.length "ab" < 3) by (simpl; lia).
  split; [exact H1|]. split.
  - rewrite (proj1 (attachment_source_fallback (fun p => String.eqb p "Takeout/IMG.jpg")
                      "Takeout") "IMG." "png" H1).
    vm_compute. reflexivity.
  - split; [exact H2|].
    rewrite (proj2 (attachment_source_fallback (fun p => String.eqb p "Takeout/jpeg")
                      "Takeout") "ab" H2).
    vm_compute. reflexivity.
Defined.

(** The total that [main] reports counts every note read, archived ones
    included, while a run with [includeArchived] unset writes the blocks of
    the active notes only. *)
Theorem numNotesWritten_counts_all (rs : list keep_record) (splitByTag : bool) (n : nat) :
  main_numNotesWritten rs splitByTag = Ok n ->
  n = length rs /\
  exists st, Forall2 (fun r x => parse_note r = Ok x) rs st /\
    forall unescape,
      length (fst (render_group unescape false st (seq 0 (length rs))))
      = length (filter (fun x => negb (archived x)) st).
Proof.
  unfold main_numNotesWritten, bind.
  destruct (read_notes splitByTag rs [] []) as [[st g]|e] eqn:E; [|discriminate].
  intros H. injection H as <-. cbn [snd].
  destruct (read_notes_untagged _ _ _ _ _ _ E (Forall_nil _) eq_refl) as (_ & Hg & Hl).
  simpl in Hl. rewrite Hg, numNotesWritten_untagged. split; [exact Hl|].
  destruct (read_notes_ok_store _ _ _ _ _ _ E) as (ns & Hns & Hf). simpl in Hns. subst ns.
  exists st. split; [exact Hf|]. intros unescape.
  rewrite render_group_active_length, <- Hl.
  exact (filter_seq_lookup (fun x => negb (archived x)) st).
Qed.

Lemma numNotesWritten_counts_all_witness :
  main_numNotesWritten demo_records false = Ok 2 /\
  2 = length demo_records /\
  length (fst (render_group html_unescape false demo_store (seq 0 2))) = 1.
Proof.
  assert (H : main_numNotesWritten demo_records false = Ok 2) by (vm_compute; reflexivity).
  split; [exact H|].
  destruct (numNotesWritten_counts_all demo_records false 2 H) as [Hn _].
  split; [exact Hn | vm_compute; reflexivity].
Defined.
